(** * A shallow embedding of scripts/generate_docs_index.py

    The script lists the Markdown reports of docs/weekly-reports, derives a
    date for each one from its name (falling back to the file's modification
    time), sorts them newest first, makes sure docs/.nojekyll exists and writes
    two index pages.

    Modelling choices, stated once:
    - A Python [str] is modelled by the bytes that stand for it ([string]):
      the UTF-8 encoding of its characters, where the lone surrogates
      U+DC80..U+DCFF that [os.listdir] uses for bytes that are not UTF-8 are
      written as those bytes. Every string the script concatenates is split
      at ASCII characters, so concatenation is the same on both sides; such a
      string can be encoded to UTF-8 exactly when its bytes are valid UTF-8
      ([utf8_ok]).
    - The two regular expressions run on the code points of the decoded
      name ([chars]), with [\d] the Unicode decimal digits of Python 3.11.
    - Exceptions are the values of [exn]; every one of them is a subclass of
      Python's [Exception], so [except Exception] catches all of them, and
      the [OSError] family is [OSError] and the constructors named after its
      subclasses.
    - The third-party parser [dateutil.parser.parse(s, dayfirst=True,
      fuzzy=True).date()] is an abstract function [dparse] of the sections
      below; where a result needs its behaviour, the property of dateutil
      that is used is stated as a hypothesis ([dmy_contract]).
    - The local time zone used by [datetime.fromtimestamp] is an abstract
      offset function [utcoffset]; modification times are whole seconds.
    - One clock reading [now] is used for [datetime.utcnow()] and for the
      modification times of what a run creates or writes. *)

From Stdlib Require Import ZArith Lia Ascii String List Bool Sorting.Permutation Sorting.Sorted.
From stdpp Require Import base gmap strings list.
Import ListNotations.
Open Scope Z_scope.

(* ------------------------------------------------------------------ *)
(** ** Exceptions and the error monad *)

Inductive exn :=
  | ValueError
  | OverflowError
  | TypeError
  | ParserError
  | OSError              (* the other errno values, such as ELOOP *)
  | FileNotFoundError
  | FileExistsError
  | NotADirectoryError
  | IsADirectoryError
  | UnicodeEncodeError.

Inductive M (A : Type) :=
  | Ret (a : A)
  | Raise (e : exn).
Arguments Ret {A} a.
Arguments Raise {A} e.

Definition bindM {A B} (c : M A) (k : A -> M B) : M B :=
  match c with
  | Ret a => k a
  | Raise e => Raise e
  end.

Notation "x <- c ;; k" := (bindM c (fun x => k))
  (at level 100, c at next level, right associativity).

(** [try: c except Exception: h] *)
Definition try_except {A} (c : M A) (h : exn -> M A) : M A :=
  match c with
  | Ret a => Ret a
  | Raise e => h e
  end.

(* ------------------------------------------------------------------ *)
(** ** Bytes and characters

    A file name is the bytes [os.listdir] returns; Python works on the
    [str] it decodes them to (UTF-8, with [surrogateescape]: a byte that is
    not part of a valid sequence becomes the lone surrogate U+DC00 + byte).
    The regular expressions run on that [str], a list of code points. *)

Definition byte (c : ascii) : Z := Z.of_nat (nat_of_ascii c).

Definition byte_in (lo hi : nat) (c : ascii) : bool :=
  (Nat.leb lo (nat_of_ascii c) && Nat.leb (nat_of_ascii c) hi)%bool.

(** Valid UTF-8 for Python's strict codec: no overlong forms, no encoded
    surrogates, nothing above U+10FFFF. *)
Fixpoint utf8_valid (s : list ascii) : bool :=
  match s with
  | [] => true
  | c :: r =>
      if byte_in 0 127 c then utf8_valid r
      else match r with
      | [] => false
      | c1 :: r1 =>
          if byte_in 194 223 c then (byte_in 128 191 c1 && utf8_valid r1)%bool
          else match r1 with
          | [] => false
          | c2 :: r2 =>
              if byte_in 224 239 c then
                ((if byte_in 224 224 c then byte_in 160 191 c1
                  else if byte_in 237 237 c then byte_in 128 159 c1
                  else byte_in 128 191 c1)
                 && byte_in 128 191 c2 && utf8_valid r2)%bool
              else match r2 with
              | [] => false
              | c3 :: r3 =>
                  if byte_in 240 244 c then
                    ((if byte_in 240 240 c then byte_in 144 191 c1
                      else if byte_in 244 244 c then byte_in 128 143 c1
                      else byte_in 128 191 c1)
                     && byte_in 128 191 c2 && byte_in 128 191 c3 && utf8_valid r3)%bool
                  else false
              end
          end
      end
  end.

(** [s.encode("utf-8")] succeeds on the [str] of the bytes [s]. *)
Definition utf8_ok (s : string) : bool := utf8_valid (list_ascii_of_string s).

(** [os.fsdecode]: UTF-8 with [surrogateescape]. *)
Fixpoint fsdecode (s : list ascii) : list Z :=
  match s with
  | [] => []
  | c :: r =>
      if byte_in 0 127 c then byte c :: fsdecode r
      else match r with
      | [] => (56320 + byte c) :: fsdecode r
      | c1 :: r1 =>
          if byte_in 194 223 c then
            if byte_in 128 191 c1
            then (64 * (byte c - 192) + (byte c1 - 128)) :: fsdecode r1
            else (56320 + byte c) :: fsdecode r
          else match r1 with
          | [] => (56320 + byte c) :: fsdecode r
          | c2 :: r2 =>
              if byte_in 224 239 c then
                if ((if byte_in 224 224 c then byte_in 160 191 c1
                     else if byte_in 237 237 c then byte_in 128 159 c1
                     else byte_in 128 191 c1) && byte_in 128 191 c2)%bool
                then (4096 * (byte c - 224) + 64 * (byte c1 - 128) + (byte c2 - 128))
                       :: fsdecode r2
                else (56320 + byte c) :: fsdecode r
              else match r2 with
              | [] => (56320 + byte c) :: fsdecode r
              | c3 :: r3 =>
                  if (byte_in 240 244 c
                      && (if byte_in 240 240 c then byte_in 144 191 c1
                          else if byte_in 244 244 c then byte_in 128 143 c1
                          else byte_in 128 191 c1)
                      && byte_in 128 191 c2 && byte_in 128 191 c3)%bool
                  then (262144 * (byte c - 240) + 4096 * (byte c1 - 128)
                        + 64 * (byte c2 - 128) + (byte c3 - 128)) :: fsdecode r3
                  else (56320 + byte c) :: fsdecode r
              end
          end
      end
  end.

Definition byte_of (z : Z) : ascii := ascii_of_nat (Z.to_nat z).

(** [os.fsencode]: back to bytes. *)
Definition fsencode1 (z : Z) : list ascii :=
  if z <? 128 then [byte_of z]
  else if ((56448 <=? z) && (z <? 56576))%bool then [byte_of (z - 56320)]
  else if z <? 2048 then [byte_of (192 + z / 64); byte_of (128 + z mod 64)]
  else if z <? 65536 then
    [byte_of (224 + z / 4096); byte_of (128 + (z / 64) mod 64); byte_of (128 + z mod 64)]
  else [byte_of (240 + z / 262144); byte_of (128 + (z / 4096) mod 64);
        byte_of (128 + (z / 64) mod 64); byte_of (128 + z mod 64)].

Definition fsencode (l : list Z) : list ascii := flat_map fsencode1 l.

(** The characters of the [str] a byte string stands for, and back. *)
Definition chars (s : string) : list Z := fsdecode (list_ascii_of_string s).
Definition str_of (l : list Z) : string := string_of_list_ascii (fsencode l).

(** The code point of an ASCII character. *)
Definition code (c : ascii) : Z := Z.of_nat (nat_of_ascii c).

Definition char_eqb (c : ascii) : Z -> bool := fun d => Z.eqb (code c) d.

Definition char_in (cs : list ascii) (d : Z) : bool :=
  existsb (fun c => char_eqb c d) cs.

(** [[lo-hi]] *)
Definition char_range (lo hi : ascii) (d : Z) : bool :=
  (Z.leb (code lo) d && Z.leb d (code hi))%bool.

(** [[A-Za-z]] *)
Definition is_alpha (d : Z) : bool :=
  (char_range "A" "Z" d || char_range "a" "z" d)%bool.

(** The code points of the digits zero of Unicode's decimal digits
    (category Nd, Unicode 14.0 as in Python 3.11); each is followed by the
    digits one to nine. *)
Definition nd_zeros : list Z :=
  [48; 1632; 1776; 1984; 2406; 2534; 2662; 2790; 2918; 3046; 3174; 3302; 3430;
   3558; 3664; 3792; 3872; 4160; 4240; 6112; 6160; 6470; 6608; 6784; 6800; 6992;
   7088; 7232; 7248; 42528; 43216; 43264; 43472; 43504; 43600; 44016; 65296;
   66720; 68912; 69734; 69872; 69942; 70096; 70384; 70736; 70864; 71248; 71360;
   71472; 71904; 72016; 72784; 73040; 73120; 92768; 92864; 93008; 120782; 120792;
   120802; 120812; 120822; 123200; 123632; 125264; 130032].

Definition digit_zero (d : Z) : option Z :=
  List.find (fun z => (Z.leb z d && Z.ltb d (z + 10))%bool) nd_zeros.

(** [\d] of a [str] pattern: a Unicode decimal digit. *)
Definition is_digit (d : Z) : bool :=
  match digit_zero d with Some _ => true | None => false end.

Definition digit_val (d : Z) : Z :=
  match digit_zero d with Some z => d - z | None => 0 end.

(** [int(s)] on a string of decimal digits *)
Definition int_of_digits (s : list Z) : Z :=
  fold_left (fun acc c => 10 * acc + digit_val c) s 0.

(** [str.lower] on ASCII, applied to the bytes of a name. It is used only
    in [f.lower().endswith(".md")]; no other character lower-cases to a
    string holding ["."], ["m"] or ["d"], so the test is the same on the
    bytes as on the [str]. *)
Definition lower_char (c : ascii) : ascii :=
  let n := nat_of_ascii c in
  if (Nat.leb 65 n && Nat.leb n 90)%bool then ascii_of_nat (n + 32) else c.

Definition lower (s : string) : string :=
  string_of_list_ascii (map lower_char (list_ascii_of_string s)).

(* ------------------------------------------------------------------ *)
(** ** Python's [re]: backtracking matcher for the patterns used

    A regular expression of the script is built from single-character
    classes with a bounded or unbounded greedy repetition, concatenation and
    alternation. [rmatch r s k] tries the ways [r] can match a prefix of
    [s] in the order Python's backtracking engine tries them (left branch of
    an alternation first, greedy repetitions longest first) and returns the
    first one whose continuation [k] accepts the remaining input. *)

Inductive regex :=
  | RCls (p : Z -> bool) (lo : nat) (hi : option nat)
  | RSeq (r1 r2 : regex)
  | RAlt (r1 r2 : regex).

(** Length of the longest prefix of [s] of characters in [p], at most [hi]. *)
Fixpoint run_len (p : Z -> bool) (hi : option nat) (s : list Z) : nat :=
  match hi with
  | Some 0%nat => 0%nat
  | _ =>
      match s with
      | [] => 0%nat
      | c :: s' =>
          if p c then S (run_len p (option_map Nat.pred hi) s') else 0%nat
      end
  end.

(** Try the repetition counts [n], [n-1], ..., [lo]. *)
Fixpoint back_off {A} (k : list Z -> option A) (lo n : nat) (s : list Z)
    : option A :=
  if Nat.leb lo n then
    match k (skipn n s) with
    | Some a => Some a
    | None => match n with O => None | S n' => back_off k lo n' s end
    end
  else None.

Fixpoint rmatch {A} (r : regex) (s : list Z) (k : list Z -> option A)
    : option A :=
  match r with
  | RCls p lo hi => back_off k lo (run_len p hi s) s
  | RSeq r1 r2 => rmatch r1 s (fun s' => rmatch r2 s' k)
  | RAlt r1 r2 =>
      match rmatch r1 s k with
      | Some a => Some a
      | None => rmatch r2 s k
      end
  end.

(** [pattern.search(s).group(0)]: the first match at the leftmost position. *)
Fixpoint search (r : regex) (s : list Z) : option (list Z) :=
  match rmatch r s (fun rest => Some rest) with
  | Some rest => Some (firstn (length s - length rest) s)
  | None =>
      match s with
      | [] => None
      | _ :: s' => search r s'
      end
  end.

Definition one (p : Z -> bool) : regex := RCls p 1 (Some 1%nat).
Definition rep (p : Z -> bool) (n : nat) : regex := RCls p n (Some n).
Definition opt (p : Z -> bool) : regex := RCls p 0 (Some 1%nat).

Definition sep_class : Z -> bool := char_in ["-"; "_"; " "]%char.

(** [date_regex_iso = re.compile(r"(\d{4}-\d{2}-\d{2})")] *)
Definition date_regex_iso : regex :=
  RSeq (rep is_digit 4) (RSeq (one (char_eqb "-")) (RSeq (rep is_digit 2)
    (RSeq (one (char_eqb "-")) (rep is_digit 2)))).

(** [date_like = re.compile(r"(\d{1,2}[-_ ]?[A-Za-z]{3,}[-_ ]?\d{4})|([A-Za-z]{3,}[-_ ]?\d{1,2}[-_ ]?\d{4})")] *)
Definition date_like : regex :=
  RAlt
    (RSeq (RCls is_digit 1 (Some 2%nat)) (RSeq (opt sep_class)
      (RSeq (RCls is_alpha 3 None) (RSeq (opt sep_class) (rep is_digit 4)))))
    (RSeq (RCls is_alpha 3 None) (RSeq (opt sep_class)
      (RSeq (RCls is_digit 1 (Some 2%nat)) (RSeq (opt sep_class) (rep is_digit 4))))).

(* ------------------------------------------------------------------ *)
(** ** Calendar dates ([datetime.date]) *)

Record date := mkdate { year : Z; month : Z; day : Z }.

Definition is_leap (y : Z) : bool :=
  (Z.eqb (y mod 4) 0 && (negb (Z.eqb (y mod 100) 0) || Z.eqb (y mod 400) 0))%bool.

Definition days_in_month (y m : Z) : Z :=
  if Z.eqb m 2 then (if is_leap y then 29 else 28)
  else if (Z.eqb m 4 || Z.eqb m 6 || Z.eqb m 9 || Z.eqb m 11)%bool then 30
  else 31.

(** The range checks of the [date] constructor ([MINYEAR = 1], [MAXYEAR = 9999]). *)
Definition valid_date (d : date) : bool :=
  (Z.leb 1 (year d) && Z.leb (year d) 9999 && Z.leb 1 (month d) && Z.leb (month d) 12
   && Z.leb 1 (day d) && Z.leb (day d) (days_in_month (year d) (month d)))%bool.

(** Date comparison ([date.__lt__]): lexicographic on (year, month, day). *)
Definition date_ltb (a b : date) : bool :=
  (Z.ltb (year a) (year b)
   || (Z.eqb (year a) (year b)
       && (Z.ltb (month a) (month b)
           || (Z.eqb (month a) (month b) && Z.ltb (day a) (day b)))))%bool.

Definition date_eqb (a b : date) : bool :=
  (Z.eqb (year a) (year b) && Z.eqb (month a) (month b) && Z.eqb (day a) (day b))%bool.

(* ------------------------------------------------------------------ *)
(** ** [datetime.strptime(s, "%Y-%m-%d").date()]

    CPython's [_strptime] turns the format into the regular expression
    [(?P<Y>\d\d\d\d)-(?P<m>1[0-2]|0[1-9]|[1-9])-(?P<d>3[01]|[12]\d|0[1-9]|[1-9]| [1-9])],
    matches it at the start of the input, raises [ValueError] when it does not
    match or when characters remain after the match ("unconverted data
    remains"), and builds the date from [int] of the groups, which raises
    [ValueError] when it is out of range. *)

Definition re_Y : regex := rep is_digit 4.
Definition re_m : regex :=
  RAlt (RSeq (one (char_eqb "1")) (one (char_range "0" "2")))
    (RAlt (RSeq (one (char_eqb "0")) (one (char_range "1" "9")))
      (one (char_range "1" "9"))).
Definition re_d : regex :=
  RAlt (RSeq (one (char_eqb "3")) (one (char_range "0" "1")))
    (RAlt (RSeq (one (char_range "1" "2")) (one is_digit))
      (RAlt (RSeq (one (char_eqb "0")) (one (char_range "1" "9")))
        (RAlt (one (char_range "1" "9"))
          (RSeq (one (char_eqb " ")) (one (char_range "1" "9")))))).

(** The part of [s] consumed before [rest] is left. *)
Definition consumed (s rest : list Z) : list Z :=
  firstn (length s - length rest) s.

(** [int(g)] of a group: Python's [int] skips the blank of [" 5"]. *)
Definition py_int (g : list Z) : Z := int_of_digits (List.filter is_digit g).

Definition strptime_Ymd (s : list Z) : M date :=
  let found :=
    rmatch re_Y s (fun s1 =>
      match s1 with
      | c1 :: s1' =>
          if char_eqb "-" c1 then
            rmatch re_m s1' (fun s2 =>
              match s2 with
              | c2 :: s2' =>
                  if char_eqb "-" c2 then
                    rmatch re_d s2' (fun s3 =>
                      Some (consumed s s1, consumed s1' s2, consumed s2' s3, s3))
                  else None
              | [] => None
              end)
          else None
      | [] => None
      end) in
  match found with
  | None => Raise ValueError
  | Some (gy, gm, gd, rest) =>
      match rest with
      | _ :: _ => Raise ValueError
      | [] =>
          let d := mkdate (py_int gy) (py_int gm) (py_int gd) in
          if valid_date d then Ret d else Raise ValueError
      end
  end.

(* ------------------------------------------------------------------ *)
(** ** [extract_date_from_name] *)

Section Extract.

(** [dparser.parse(s, dayfirst=True, fuzzy=True).date()] *)
Variable dparse : string -> M date.

(** 3) fuzzy parse whole filename *)
Definition fuzzy_layer (fname : string) : M (option date) :=
  try_except (d <- dparse fname ;; Ret (Some d)) (fun _ => Ret None).

(** 2) partial patterns like 15-sept-2025 *)
Definition partial_layer (fname : string) : M (option date) :=
  match search date_like (chars fname) with
  | Some g =>
      try_except (d <- dparse (str_of g) ;; Ret (Some d))
        (fun _ => fuzzy_layer fname)
  | None => fuzzy_layer fname
  end.

(** 1) strict ISO format, then the layers above *)
Definition extract_date_from_name (fname : string) : M (option date) :=
  match search date_regex_iso (chars fname) with
  | Some g =>
      try_except (d <- strptime_Ymd g ;; Ret (Some d)) (fun _ => partial_layer fname)
  | None => partial_layer fname
  end.

End Extract.

(* ------------------------------------------------------------------ *)
(** ** What is used of dateutil: a day, a month name and a year

    For an input made of 1 or 2 ASCII digits, a separator [-] or [/], a run
    of ASCII letters, the same separator and 4 ASCII digits, dateutil's lexer
    yields the five tokens [D; sep; name; sep; YYYY]; [_parse_numeric_token]
    takes the branch [tokens[idx + 1] in ('-', '/', '.')], appends [D], the
    month of [name] (labelled 'M', looked up lower-cased in
    [parserinfo.MONTHS]) and the 4-digit year (labelled 'Y'); [resolve_ymd]
    gives the remaining index to the day. The result is that date when it
    exists. *)

Definition MONTHS : list (list string * Z) :=
  [(["jan"; "january"], 1); (["feb"; "february"], 2); (["mar"; "march"], 3);
   (["apr"; "april"], 4); (["may"], 5); (["jun"; "june"], 6);
   (["jul"; "july"], 7); (["aug"; "august"], 8);
   (["sep"; "sept"; "september"], 9); (["oct"; "october"], 10);
   (["nov"; "november"], 11); (["dec"; "december"], 12)].

(** [parserinfo.month(name)] *)
Definition info_month (name : string) : option Z :=
  let n := lower name in
  option_map snd (List.find (fun e => existsb (String.eqb n) e.1) MONTHS).

Definition ascii_digit : Z -> bool := char_range "0" "9".

Definition dmy_shape (s : string) : option date :=
  let l := chars s in
  let nd := run_len ascii_digit None l in
  let dd := firstn nd l in
  match skipn nd l with
  | sep :: r1 =>
      let na := run_len is_alpha None r1 in
      let name := firstn na r1 in
      match skipn na r1 with
      | sep' :: r2 =>
          if (Nat.leb 1 nd && Nat.leb nd 2 && Nat.leb 1 na
              && char_in ["-"; "/"]%char sep && Z.eqb sep sep'
              && Nat.eqb (length r2) 4 && forallb ascii_digit r2)%bool
          then option_map (fun m => mkdate (int_of_digits r2) m (int_of_digits dd))
                 (info_month (str_of name))
          else None
      | [] => None
      end
  | [] => None
  end.

(** dateutil returns the date of such an input when it is a valid date. *)
Definition dmy_contract (dparse : string -> M date) : Prop :=
  forall s d, dmy_shape s = Some d -> valid_date d = true -> dparse s = Ret d.

(** A parser with exactly that behaviour, raising elsewhere. *)
Definition dmy_only (s : string) : M date :=
  match dmy_shape s with
  | Some d => if valid_date d then Ret d else Raise ParserError
  | None => Raise ParserError
  end.

(* ------------------------------------------------------------------ *)
(** ** Clock and formatting *)

(** Days since 1970-01-01 to a proleptic Gregorian date. *)
Definition civil_from_days (z0 : Z) : date :=
  let z := z0 + 719468 in
  let era := z / 146097 in
  let doe := z - era * 146097 in
  let yoe := (doe - doe / 1460 + doe / 36524 - doe / 146096) / 365 in
  let y := yoe + era * 400 in
  let doy := doe - (365 * yoe + yoe / 4 - yoe / 100) in
  let mp := (5 * doy + 2) / 153 in
  let d := doy - (153 * mp + 2) / 5 + 1 in
  let m := if Z.ltb mp 10 then mp + 3 else mp - 9 in
  mkdate (if Z.leb m 2 then y + 1 else y) m d.

Fixpoint dec_digits (fuel : nat) (n : Z) : list ascii :=
  match fuel with
  | O => []
  | S fuel' =>
      let c := ascii_of_nat (Z.to_nat (n mod 10) + 48) in
      if Z.ltb n 10 then [c] else dec_digits fuel' (n / 10) ++ [c]
  end.

(** ["%0wd" % n] for [n >= 0] *)
Definition pad (w : nat) (n : Z) : string :=
  let ds := dec_digits 20 n in
  string_of_list_ascii (repeat "0"%char (w - length ds) ++ ds).

Definition nl : string := String (ascii_of_nat 10) EmptyString.

(** U+2014 EM DASH, as the UTF-8 bytes [open(..., encoding="utf-8")] writes. *)
Definition em_dash : string :=
  string_of_list_ascii [ascii_of_nat 226; ascii_of_nat 128; ascii_of_nat 148].

(** [date.isoformat()] *)
Definition isoformat (d : date) : string :=
  pad 4 (year d) +:+ "-" +:+ pad 2 (month d) +:+ "-" +:+ pad 2 (day d).

(** [datetime.utcnow().strftime('%Y-%m-%d %H:%M UTC')] at POSIX time [now]. *)
Definition utc_stamp (now : Z) : string :=
  let d := civil_from_days (now / 86400) in
  let secs := now mod 86400 in
  isoformat d +:+ " " +:+ pad 2 (secs / 3600) +:+ ":" +:+ pad 2 ((secs mod 3600) / 60)
  +:+ " UTC".

Fixpoint concat_str (l : list string) : string :=
  match l with
  | [] => EmptyString
  | s :: l' => s +:+ concat_str l'
  end.

(* ------------------------------------------------------------------ *)
(** ** Sorting: [pairs.sort(key=lambda x: (x[1] is None, x[1]), reverse=...)] *)

Definition entry := (string * option date)%type.

(** [(a is None, a) < (b is None, b)]: [False < True] on the first component;
    two [None] keys are equal tuples and are not compared further. *)
Definition key_lt (a b : option date) : bool :=
  match a, b with
  | Some x, Some y => date_ltb x y
  | Some _, None => true
  | None, _ => false
  end.

(** Insert [x] after the elements it does not have to precede. *)
Fixpoint insert_by (reverse : bool) (x : entry) (l : list entry) : list entry :=
  match l with
  | [] => [x]
  | y :: l' =>
      if (if reverse then key_lt y.2 x.2 else key_lt x.2 y.2)
      then x :: l else y :: insert_by reverse x l'
  end.

(** Python's stable [list.sort]; [reverse=True] keeps equal keys in their
    original order too. *)
Definition py_sort (reverse : bool) (l : list entry) : list entry :=
  fold_left (fun acc x => insert_by reverse x acc) l [].

(* ------------------------------------------------------------------ *)
(** ** Rendering *)

Definition link_line (e : entry) : string :=
  let '(fname, dt) := e in
  let display :=
    match dt with
    | Some d => isoformat d +:+ " " +:+ em_dash +:+ " " +:+ fname
    | None => fname
    end in
  "- [" +:+ display +:+ "](" +:+ fname +:+ ")" +:+ nl.

Definition weekly_header : list string :=
  ["# Weekly Reports Index" +:+ nl +:+ nl;
   "_This page lists all available weekly reports._" +:+ nl +:+ nl].

Definition no_reports_line : string := "No reports yet." +:+ nl.

(** [lines] of docs/weekly-reports/index.md *)
Definition weekly_lines (pairs : list entry) : list string :=
  weekly_header ++
  match pairs with
  | [] => [no_reports_line]
  | _ => map link_line pairs
  end.

Definition updated_line (now : Z) : string :=
  "_Updated: " +:+ utc_stamp now +:+ "_" +:+ nl +:+ nl.

Definition browse_link_line : string :=
  "- [Weekly Reports](/weekly-reports/)" +:+ nl +:+ nl.

(** [main_lines] of docs/index.md *)
Definition main_lines (now : Z) : list string :=
  ["# Thesis Diary " +:+ em_dash +:+ " Weekly Reports" +:+ nl +:+ nl;
   updated_line now;
   "## Browse" +:+ nl +:+ nl;
   browse_link_line;
   "---" +:+ nl +:+ nl +:+ "Click above to see individual weekly reports." +:+ nl].

(* ------------------------------------------------------------------ *)
(** ** The file system

    A map from absolute paths, as lists of components, to the objects of the
    file system: regular files, directories and symbolic links (the root is
    the path [[]]). A path string of the script is split at ['/'] and looked
    up from the working directory [cwd] the way the kernel does it: empty
    and ["."] components stay where they are, [".."] goes to the parent, a
    directory is entered, a symbolic link is replaced by its target (read
    from the link's directory, or from the root when it is absolute), at most
    40 links per lookup ([ELOOP] after that), and a missing object or a
    regular file in the middle of a path is an error. Modification times
    are whole seconds since the epoch. Every operation is assumed to be
    permitted (no permission, quota or device errors) and nothing else
    changes the tree during a run. *)

Inductive node :=
  | File (contents : string) (mtime : Z)
  | Dir (mtime : Z)
  | Link (target : string).

Abbreviation fs_t := (gmap (list string) node).

(** Stateful code: a computation on the file system returns the state it
    leaves and a value or the exception it raised. *)
Definition IO (A : Type) : Type := fs_t -> fs_t * M A.

Definition io_ret {A} (a : A) : IO A := fun fs => (fs, Ret a).
Definition io_raise {A} (e : exn) : IO A := fun fs => (fs, Raise e).
Definition io_read {A} (f : fs_t -> M A) : IO A := fun fs => (fs, f fs).

Definition io_bind {A B} (c : IO A) (k : A -> IO B) : IO B :=
  fun fs =>
    match c fs with
    | (fs', Ret a) => k a fs'
    | (fs', Raise e) => (fs', Raise e)
    end.

Notation "x <-- c ;;; k" := (io_bind c (fun x => k))
  (at level 100, c at next level, right associativity).

(** [try: c except ...: h] *)
Definition io_catch {A} (c : IO A) (h : exn -> IO A) : IO A :=
  fun fs =>
    match c fs with
    | (fs', Ret a) => (fs', Ret a)
    | (fs', Raise e) => h e fs'
    end.

Definition DOCS : string := "docs".
Definition WEEKLY_DIR : string := DOCS +:+ "/weekly-reports".

(** [os.path.join(d, f)] for a relative [f] *)
Definition path_join (d f : string) : string := d +:+ "/" +:+ f.

Definition NOJEKYLL : string := path_join DOCS ".nojekyll".
Definition weekly_index_path : string := path_join WEEKLY_DIR "index.md".
Definition main_index_path : string := path_join DOCS "index.md".

(** [s.split("/")] *)
Fixpoint split_path (s : string) : list string :=
  match s with
  | EmptyString => [EmptyString]
  | String c s' =>
      let r := split_path s' in
      if Ascii.eqb c "/" then EmptyString :: r
      else match r with
           | x :: r' => String c x :: r'
           | [] => [String c EmptyString]
           end
  end.

Definition is_abs (s : string) : bool :=
  match s with
  | String c _ => Ascii.eqb c "/"
  | EmptyString => false
  end.

Definition is_nil {A} (l : list A) : bool :=
  match l with [] => true | _ => false end.

Definition is_dir_node (o : option node) : bool :=
  match o with Some (Dir _) => true | _ => false end.

Definition dir_at (fs : fs_t) (d : list string) : bool := is_dir_node (fs !! d).

Section Walk.

Variable fs : fs_t.
(** Whether a symbolic link in the last component is followed. *)
Variable follow : bool.

(** One pass over the components [cs] from the directory [d]; [k] carries
    on at the target of a link. *)
Fixpoint walk_step (k : list string -> list string -> M (list string))
    (d : list string) (cs : list string) : M (list string) :=
  match cs with
  | [] => Ret d
  | c :: cs' =>
      if (String.eqb c "" || String.eqb c ".")%bool then walk_step k d cs'
      else if String.eqb c ".." then walk_step k (removelast d) cs'
      else
        let p := d ++ [c] in
        match fs !! p with
        | Some (Dir _) => walk_step k p cs'
        | Some (File _ _) => if is_nil cs' then Ret p else Raise NotADirectoryError
        | Some (Link t) =>
            if (negb follow && is_nil cs')%bool then Ret p
            else k (if is_abs t then [] else d) (split_path t ++ cs')
        | None => if is_nil cs' then Ret p else Raise FileNotFoundError
        end
  end.

(** The lookup, following at most [fuel] more links. *)
Fixpoint walk (fuel : nat) (d : list string) (cs : list string) : M (list string) :=
  walk_step (fun d' cs' =>
               match fuel with
               | O => Raise OSError
               | S fuel' => walk fuel' d' cs'
               end) d cs.

End Walk.

(** The object a path string names: its absolute path. *)
Definition resolve_with (follow : bool) (cwd : list string) (fs : fs_t) (p : string)
    : M (list string) :=
  if is_abs p then walk fs follow 40 [] (split_path p)
  else if dir_at fs cwd then walk fs follow 40 cwd (split_path p)
  else Raise FileNotFoundError.

Fixpoint strip_path (q k : list string) : option (list string) :=
  match q, k with
  | [], _ => Some k
  | c :: q', c' :: k' => if String.eqb c c' then strip_path q' k' else None
  | _ :: _, [] => None
  end.

Definition has_slash (s : string) : bool :=
  existsb (Ascii.eqb "/") (list_ascii_of_string s).

(** The names of the objects directly in the directory [q], whatever their
    kind: files, directories and symbolic links, broken ones included. *)
Definition listdir (q : list string) (fs : fs_t) : list string :=
  omap (fun kv : list string * node =>
          match strip_path q kv.1 with
          | Some [name] =>
              if (negb (String.eqb name "") && negb (String.eqb name ".")
                  && negb (String.eqb name "..") && negb (has_slash name))%bool
              then Some name else None
          | _ => None
          end) (map_to_list fs).

Fixpoint take_while {A} (f : A -> bool) (l : list A) : list A :=
  match l with
  | [] => []
  | x :: l' => if f x then x :: take_while f l' else []
  end.

Section OS.

Variable cwd : list string.

Definition resolve : fs_t -> string -> M (list string) := resolve_with true cwd.

(** [os.stat(p)]: the object a path leads to, links followed. *)
Definition node_at (fs : fs_t) (p : string) : M node :=
  q <- resolve fs p ;;
  match fs !! q with
  | Some n => Ret n
  | None => Raise FileNotFoundError
  end.

(** [os.path.getmtime(p)] *)
Definition getmtime (fs : fs_t) (p : string) : M Z :=
  n <- node_at fs p ;;
  match n with
  | File _ m => Ret m
  | Dir m => Ret m
  | Link _ => Raise OSError
  end.

(** [os.path.exists(p)] and [os.path.isdir(p)]: [False] when [os.stat] raises. *)
Definition path_exists (fs : fs_t) (p : string) : bool :=
  match node_at fs p with Ret _ => true | Raise _ => false end.

Definition path_isdir (fs : fs_t) (p : string) : bool :=
  match node_at fs p with Ret (Dir _) => true | _ => false end.

(** [os.listdir(p)] *)
Definition os_listdir (fs : fs_t) (p : string) : M (list string) :=
  q <- resolve fs p ;;
  match fs !! q with
  | Some (Dir _) => Ret (listdir q fs)
  | Some _ => Raise NotADirectoryError
  | None => Raise FileNotFoundError
  end.

(** [os.mkdir(p)]: the last component is not followed, and any object
    there, a broken link included, is [EEXIST]. *)
Definition os_mkdir (now : Z) (p : string) : IO unit :=
  fun fs =>
    match resolve_with false cwd fs p with
    | Ret q =>
        match fs !! q with
        | None => (<[q := Dir now]> fs, Ret tt)
        | Some _ => (fs, Raise FileExistsError)
        end
    | Raise e => (fs, Raise e)
    end.

(** [try: mkdir(p) except OSError: if not exist_ok or not path.isdir(p): raise]
    of [os.makedirs], with [exist_ok=True]. *)
Definition mkdir_exist_ok (now : Z) (p : string) : IO unit :=
  io_catch (os_mkdir now p)
    (fun e fs => if path_isdir fs p then (fs, Ret tt) else (fs, Raise e)).

(** [os.makedirs(WEEKLY_DIR, exist_ok=True)]: the head ["docs"] is made
    first when [path.exists] says it is not there, a [FileExistsError] from
    that being ignored, then ["docs/weekly-reports"] itself. *)
Definition makedirs_weekly (now : Z) : IO unit :=
  _ <-- (fun fs =>
           if path_exists fs DOCS then (fs, Ret tt)
           else io_catch (mkdir_exist_ok now DOCS)
                  (fun e => match e with
                            | FileExistsError => io_ret tt
                            | _ => io_raise e
                            end) fs) ;;;
  mkdir_exist_ok now WEEKLY_DIR.

(** [open(p, "a").close()]: creates an empty file when nothing is there
    (through a broken link, at its target), leaves a file as it is. *)
Definition open_append (now : Z) (p : string) : IO unit :=
  fun fs =>
    match resolve fs p with
    | Ret q =>
        match fs !! q with
        | None => (<[q := File "" now]> fs, Ret tt)
        | Some (File _ _) => (fs, Ret tt)
        | Some (Dir _) => (fs, Raise IsADirectoryError)
        | Some (Link _) => (fs, Raise OSError)
        end
    | Raise e => (fs, Raise e)
    end.

(** [with open(p, "w", encoding="utf-8") as fh: fh.writelines(lines)]: the
    file is truncated (or created), then the lines are encoded one by one;
    the first line that cannot be encoded raises [UnicodeEncodeError], and
    closing the file keeps the lines written before it. *)
Definition write_lines (now : Z) (p : string) (lines : list string) : IO unit :=
  fun fs =>
    match resolve fs p with
    | Ret q =>
        match fs !! q with
        | Some (Dir _) => (fs, Raise IsADirectoryError)
        | Some (Link _) => (fs, Raise OSError)
        | _ =>
            (<[q := File (concat_str (take_while utf8_ok lines)) now]> fs,
             if forallb utf8_ok lines then Ret tt else Raise UnicodeEncodeError)
        end
    | Raise e => (fs, Raise e)
    end.

End OS.

(** [f.lower().endswith(".md") and f != "index.md"] *)
Fixpoint prefixb (p s : list ascii) : bool :=
  match p, s with
  | [], _ => true
  | c :: p', c' :: s' => (Ascii.eqb c c' && prefixb p' s')%bool
  | _ :: _, [] => false
  end.

(** [s.endswith(suffix)] *)
Definition endswith (s suffix : string) : bool :=
  prefixb (rev (list_ascii_of_string suffix)) (rev (list_ascii_of_string s)).

Definition is_report (f : string) : bool :=
  (endswith (lower f) ".md" && negb (String.eqb f "index.md"))%bool.

(** [files = [f for f in os.listdir(WEEKLY_DIR) if ...]], from the names listed. *)
Definition report_files (names : list string) : list string :=
  List.filter is_report names.

(* ------------------------------------------------------------------ *)
(** ** The script *)

Section Program.

Variable dparse : string -> M date.
(** UTC offset of the local time zone, in seconds, at a POSIX time. *)
Variable utcoffset : Z -> Z.
(** The working directory. *)
Variable cwd : list string.

(** [localtime] and the year check of the [datetime] code: [OSError] when
    the year does not fit [localtime]'s [int], [ValueError] outside [1..9999]. *)
Definition localtime_date (ts : Z) : M date :=
  let d := civil_from_days ((ts + utcoffset ts) / 86400) in
  if negb ((- 2 ^ 31 <=? year d - 1900) && (year d - 1900 <? 2 ^ 31))%bool then Raise OSError
  else if ((1 <=? year d) && (year d <=? 9999))%bool then Ret d
  else Raise ValueError.

(** [datetime.fromtimestamp(ts).date()]: [OverflowError] outside [time_t];
    CPython also looks up the local time one day earlier, and at the
    offset change when the offset went down, to detect a fold. *)
Definition local_date (ts : Z) : M date :=
  if negb ((- 2 ^ 63 <=? ts) && (ts <? 2 ^ 63))%bool then Raise OverflowError
  else
    d <- localtime_date ts ;;
    _ <- localtime_date (ts - 86400) ;;
    let transition := utcoffset ts - utcoffset (ts - 86400) in
    _ <- (if transition <? 0 then localtime_date (ts + transition) else Ret d) ;;
    Ret d.

(** [file_mtime_date(path)] *)
Definition file_mtime_date (fs : fs_t) (path : string) : M date :=
  ts <- getmtime cwd fs path ;;
  local_date ts.

(** The loop building [pairs]. *)
Fixpoint build_pairs (fs : fs_t) (files : list string) : M (list entry) :=
  match files with
  | [] => Ret []
  | f :: files' =>
      let path := path_join WEEKLY_DIR f in
      d <- extract_date_from_name dparse f ;;
      d' <- match d with
            | None => m <- file_mtime_date fs path ;; Ret (Some m)
            | Some x => Ret (Some x)
            end ;;
      rest <- build_pairs fs files' ;;
      Ret ((f, d') :: rest)
  end.

(** One run of the script; [now] is the time of the run ([datetime.utcnow()],
    and the modification time of what it creates or writes). The final
    [print] changes no file. *)
Definition run (now : Z) : IO unit :=
  _ <-- makedirs_weekly cwd now ;;;
  names <-- io_read (fun fs => os_listdir cwd fs WEEKLY_DIR) ;;;
  pairs <-- io_read (fun fs => build_pairs fs (report_files names)) ;;;
  let pairs := py_sort true pairs in
  _ <-- open_append cwd now NOJEKYLL ;;;
  _ <-- write_lines cwd now weekly_index_path (weekly_lines pairs) ;;;
  write_lines cwd now main_index_path (main_lines now).

(** The sorted [pairs] of a run. *)
Definition run_pairs (now : Z) (fs : fs_t) : M (list entry) :=
  match makedirs_weekly cwd now fs with
  | (fs1, Ret _) =>
      names <- os_listdir cwd fs1 WEEKLY_DIR ;;
      pairs <- build_pairs fs1 (report_files names) ;;
      Ret (py_sort true pairs)
  | (_, Raise e) => Raise e
  end.

End Program.

(* ------------------------------------------------------------------ *)
(** ** Notions used by the statements *)

(** A [YYYY-MM-DD]-shaped word: 4 digits, a hyphen, 2 digits, a hyphen, 2 digits. *)
Definition iso_shape (w : list Z) : bool :=
  match w with
  | [y0; y1; y2; y3; h1; m0; m1; h2; d0; d1] =>
      (forallb is_digit [y0; y1; y2; y3; m0; m1; d0; d1]
       && char_eqb "-" h1 && char_eqb "-" h2)%bool
  | _ => false
  end.

(** The year, month and day written in a [YYYY-MM-DD]-shaped word. *)
Definition iso_date (w : list Z) : date :=
  mkdate (int_of_digits (firstn 4 w)) (int_of_digits (firstn 2 (skipn 5 w)))
    (int_of_digits (skipn 8 w)).

(** The leftmost [YYYY-MM-DD] substring of [s] that is a valid calendar date. *)
Fixpoint first_valid_iso (s : list Z) : option date :=
  let w := firstn 10 s in
  if (iso_shape w && valid_date (iso_date w))%bool then Some (iso_date w)
  else match s with
       | [] => None
       | _ :: s' => first_valid_iso s'
       end.

(** A [str] made of ASCII characters only. *)
Definition ascii_only (s : list Z) : bool :=
  forallb (fun c => (Z.leb 0 c && Z.ltb c 128)%bool) s.

Definition is_none {A} (o : option A) : bool :=
  match o with None => true | Some _ => false end.

(** The key order of the sort, reversed: [a] may precede [b] under [reverse=True]. *)
Definition key_ge (a b : entry) : Prop := key_lt a.2 b.2 = false.

(** The characters of a name include no decimal digit. *)
Definition no_digit (s : list Z) : bool := forallb (fun c => negb (is_digit c)) s.

(** Equality of the sort keys [(a is None, a)] and [(b is None, b)]. *)
Definition same_key (k : option date) (e : entry) : bool :=
  match k, e.2 with
  | Some a, Some b => date_eqb a b
  | None, None => true
  | _, _ => false
  end.

(** [%m] and [%d] of [_strptime]: two digits in 01..12 and 01..31. *)
Definition month_ok (a b : Z) : bool :=
  (Z.leb 1 (int_of_digits [a; b]) && Z.leb (int_of_digits [a; b]) 12)%bool.

Definition day_ok (e f : Z) : bool :=
  (Z.leb 1 (int_of_digits [e; f]) && Z.leb (int_of_digits [e; f]) 31)%bool.

(** What [open(p).read()] returns after a run, if [p] leads to a file. *)
Definition read_file (cwd : list string) (fs : fs_t) (p : string) : option string :=
  match resolve cwd fs p with
  | Ret q => match fs !! q with Some (File c _) => Some c | _ => None end
  | Raise _ => None
  end.





(** An object that is absent or a regular file; a lookup ends there. *)
Definition leafy (o : option node) : bool :=
  match o with None | Some (File _ _) => true | _ => false end.

Definition no_link (o : option node) : bool :=
  match o with Some (Link _) => false | _ => true end.

(** [fs'] keeps every directory and symbolic link of [fs]; where [fs] has
    nothing or a regular file, [fs'] may have anything but a link. *)
Definition agrees (fs fs' : fs_t) : Prop :=
  forall k, fs' !! k = fs !! k \/ (leafy (fs !! k) = true /\ no_link (fs' !! k) = true).

(** [fs'] is [fs] with some directories, of time [now], created where
    nothing was. *)
Definition grows (now : Z) (fs fs' : fs_t) : Prop :=
  forall k, fs' !! k = fs !! k \/ (fs !! k = None /\ fs' !! k = Some (Dir now)).

(* ------------------------------------------------------------------ *)
(** ** Concrete inputs *)

(** A parser that always raises, and UTC as the local time zone. *)
Definition no_parse (s : string) : M date := Raise ParserError.
Definition utc (ts : Z) : Z := 0.

(** A checkout with two reports. *)
Definition ex_tree : fs_t :=
  {[ [] := Dir 0;
     ["docs"] := Dir 0;
     ["docs"; "weekly-reports"] := Dir 0;
     ["docs"; "weekly-reports"; "notes-final.md"] := File "x" 1709337600;
     ["docs"; "weekly-reports"; "weekly-2025-09-01_to_2025-09-07.md"] := File "y" 1757000000 ]}.

(** The sorted [pairs] of a run on [ex_tree], with UTC as the time zone. *)
Definition ex_tree_pairs : list entry :=
  [("weekly-2025-09-01_to_2025-09-07.md", Some (mkdate 2025 9 1));
   ("notes-final.md", Some (mkdate 2024 3 2))].

(** An empty working directory. *)
Definition ex_fresh : fs_t := {[ [] := Dir 0 ]}.

(** A report whose modification time lies in the year 11476, and a broken link. *)
Definition ex_far_mtime : fs_t := <[ ["docs"; "weekly-reports"; "late.md"] := File "z" 300000000000 ]> ex_tree.
Definition ex_broken_link : fs_t := <[ ["docs"; "weekly-reports"; "old.md"] := Link "gone.md" ]> ex_tree.

(** The name ["٢٠٢٥-١٣-٠١_15-sept-2025_2025-09-01.md"], whose first date is
    written in Arabic-Indic digits (U+0660..U+0669, the UTF-8 bytes D9 A0..D9 A9). *)
Definition arabic_digit (n : nat) : string :=
  String (ascii_of_nat 217) (String (ascii_of_nat (160 + n)) EmptyString).

Definition ex_arabic_name : string :=
  arabic_digit 2 +:+ arabic_digit 0 +:+ arabic_digit 2 +:+ arabic_digit 5 +:+ "-" +:+
  arabic_digit 1 +:+ arabic_digit 3 +:+ "-" +:+ arabic_digit 0 +:+ arabic_digit 1 +:+
  "_15-sept-2025_2025-09-01.md".

(* ================================================================== *)
(** * Lemmas *)

Lemma run_len_le p n s : (run_len p (Some n) s <= n)%nat.
Proof.
  revert s; induction n as [|n IH]; intros [|c s]; simpl; try lia.
  destruct (p c); [specialize (IH s); lia | lia].
Qed.

Lemma run_len_full p n s :
  run_len p (Some n) s = n <-> (n <= length s)%nat /\ forallb p (firstn n s) = true.
Proof.
  revert s; induction n as [|n IH]; intros [|c s]; simpl.
  - split; [intros _; split; [lia|reflexivity] | reflexivity].
  - split; [intros _; split; [lia|reflexivity] | reflexivity].
  - split; [discriminate | intros [H _]; lia].
  - destruct (p c); simpl.
    + split; intros H.
      * injection H as H. apply IH in H as [H1 H2]. split; [lia|exact H2].
      * destruct H as [H1 H2]. f_equal. apply IH. split; [lia|exact H2].
    + split; [discriminate | intros [_ H]; discriminate].
Qed.

Lemma back_off_below {A} (k : list Z -> option A) lo m s :
  (m < lo)%nat -> back_off k lo m s = None.
Proof.
  intros H. destruct m; simpl;
    destruct (Nat.leb lo _) eqn:E; try reflexivity; apply Nat.leb_le in E; lia.
Qed.

Lemma back_off_top {A} (k : list Z -> option A) n s :
  back_off k n n s = k (skipn n s).
Proof.
  destruct n as [|n]; simpl.
  - destruct (k (skipn 0 s)); reflexivity.
  - rewrite Nat.leb_refl. destruct (k (skipn (S n) s)); [reflexivity|].
    apply back_off_below. lia.
Qed.

Lemma rmatch_rep {A} (p : Z -> bool) (n : nat) (s : list Z) (k : list Z -> option A) :
  rmatch (rep p n) s k =
  if (Nat.leb n (length s) && forallb p (firstn n s))%bool then k (skipn n s) else None.
Proof.
  simpl. pose proof (run_len_le p n s) as Hle.
  destruct (Nat.eq_dec (run_len p (Some n) s) n) as [Heq|Hne].
  - pose proof (proj1 (run_len_full p n s) Heq) as [H1 H2].
    rewrite Heq, H2. apply Nat.leb_le in H1. rewrite H1. simpl.
    apply back_off_top.
  - destruct (Nat.leb n (length s) && forallb p (firstn n s))%bool eqn:E.
    + apply andb_prop in E as [E1 E2]. apply Nat.leb_le in E1.
      exfalso. apply Hne, run_len_full. auto.
    + apply back_off_below. lia.
Qed.

Lemma rmatch_one {A} (p : Z -> bool) (s : list Z) (k : list Z -> option A) :
  rmatch (one p) s k =
  match s with
  | c :: s' => if p c then k s' else None
  | [] => None
  end.
Proof.
  change (one p) with (rep p 1). rewrite rmatch_rep.
  destruct s as [|c s']; [reflexivity|]. simpl. destruct (p c); reflexivity.
Qed.

Lemma run_len_0 p s : run_len p (Some 0%nat) s = 0%nat.
Proof. destruct s; reflexivity. Qed.

Ltac crunch_chars :=
  repeat (first [ rewrite run_len_0
                | match goal with |- context [is_digit ?c] => destruct (is_digit c) eqn:? end
                | match goal with |- context [char_eqb ?c ?d] => destruct (char_eqb c d) eqn:? end
                | match goal with |- context [Z.eqb ?c ?d] => destruct (Z.eqb c d) eqn:? end ];
          cbn -[is_digit char_eqb Z.eqb]).

Lemma rmatch_iso {A} (s : list Z) (k : list Z -> option A) :
  rmatch date_regex_iso s k =
  if iso_shape (firstn 10 s) then k (skipn 10 s) else None.
Proof.
  do 10 (destruct s as [|? s];
         [cbn -[is_digit char_eqb Z.eqb]; crunch_chars; first [reflexivity | congruence]|]).
  cbn -[is_digit char_eqb Z.eqb]. crunch_chars.
  all: try reflexivity; try congruence; rewrite ?skipn_O; destruct (k s); reflexivity.
Qed.


Lemma iso_shape_length w : iso_shape w = true -> length w = 10%nat.
Proof.
  destruct w as [|? [|? [|? [|? [|? [|? [|? [|? [|? [|? [|? w]]]]]]]]]]];
    simpl; first [discriminate | reflexivity].
Qed.

Lemma search_iso_leftmost (pre w post : list Z) :
  iso_shape w = true ->
  (forall i, (i < length pre)%nat ->
     iso_shape (firstn 10 (skipn i (pre ++ w ++ post))) = false) ->
  search date_regex_iso (pre ++ w ++ post) = Some w.
Proof.
  intros Hw. induction pre as [|c pre IH]; intros Hpre.
  - simpl app. pose proof (iso_shape_length w Hw) as Hl.
    destruct (w ++ post) as [|c s] eqn:Ews.
    { apply (f_equal (@length Z)) in Ews. rewrite length_app in Ews. simpl in Ews. lia. }
    cbn [search]. rewrite <- Ews, rmatch_iso.
    rewrite firstn_app, Hl, Nat.sub_diag, firstn_O, app_nil_r, <- Hl, firstn_all, Hw.
    rewrite skipn_app, Nat.sub_diag, skipn_O, skipn_all, app_nil_l.
    f_equal. rewrite length_app, Nat.add_sub, firstn_app, Nat.sub_diag, firstn_O,
      app_nil_r, firstn_all. reflexivity.
  - cbn [search app]. rewrite (rmatch_iso (c :: pre ++ w ++ post)).
    pose proof (Hpre 0%nat ltac:(simpl; lia)) as H0. cbn [skipn app] in H0.
    rewrite H0. apply IH.
    intros i Hi. apply (Hpre (S i)). simpl. lia.
Qed.

Lemma find_digit_zero_above (c : Z) (l : list Z) :
  Forall (fun z => c < z) l ->
  List.find (fun z => (Z.leb z c && Z.ltb c (z + 10))%bool) l = None.
Proof.
  induction l as [|z l IH]; intros H; [reflexivity|].
  inversion H as [|? ? Hz Hl]; subst. cbn [List.find].
  replace (Z.leb z c) with false by (symmetry; apply Z.leb_gt; lia). apply IH, Hl.
Qed.

(** On ASCII, [\d] is [[0-9]]. *)
Lemma is_digit_ascii c : c < 128 -> is_digit c = ascii_digit c.
Proof.
  intros Hc. unfold is_digit, digit_zero, nd_zeros, ascii_digit, char_range.
  change (code "0") with 48. change (code "9") with 57.
  assert (Hf : forall (f : Z -> bool) x l,
             List.find f (x :: l) = if f x then Some x else List.find f l) by reflexivity.
  rewrite Hf. destruct (Z.leb 48 c && Z.ltb c (48 + 10))%bool eqn:E.
  - apply andb_prop in E as [E1 E2]. apply Z.leb_le in E1. apply Z.ltb_lt in E2.
    rewrite (proj2 (Z.leb_le 48 c) E1), (proj2 (Z.leb_le c 57) ltac:(lia)). reflexivity.
  - rewrite find_digit_zero_above by (repeat constructor; lia).
    destruct (Z.leb_spec 48 c), (Z.ltb_spec c (48 + 10)), (Z.leb_spec c 57);
      simpl in *; try reflexivity; try discriminate; lia.
Qed.

Lemma ascii_digit_cases c :
  ascii_digit c = true ->
  c = 48 \/ c = 49 \/ c = 50 \/ c = 51 \/ c = 52 \/
  c = 53 \/ c = 54 \/ c = 55 \/ c = 56 \/ c = 57.
Proof.
  unfold ascii_digit, char_range. change (code "0") with 48. change (code "9") with 57.
  intros H. apply andb_prop in H as [H1 H2]. apply Z.leb_le in H1, H2. lia.
Qed.

Ltac digit_cases c :=
  match goal with
  | H : ascii_digit c = true |- _ =>
      destruct (ascii_digit_cases c H) as [E|[E|[E|[E|[E|[E|[E|[E|[E|E]]]]]]]]]; subst c
  end.

Lemma rmatch_re_m {A} (a b : Z) rest (k : list Z -> option A) :
  ascii_digit a = true -> ascii_digit b = true -> k (b :: rest) = None ->
  rmatch re_m (a :: b :: rest) k = if month_ok a b then k rest else None.
Proof.
  intros Ha Hb Hk. digit_cases a; digit_cases b; simpl; rewrite ?run_len_0; simpl;
    rewrite ?Hk, ?skipn_O; try reflexivity; destruct (k rest); reflexivity.
Qed.

Lemma rmatch_re_d {A} (e f : Z) (k : list Z -> option A) :
  ascii_digit e = true -> ascii_digit f = true -> (forall x, k x <> None) ->
  rmatch re_d [e; f] k =
  if day_ok e f then k [] else if char_eqb "0" e then None else k [f].
Proof.
  intros He Hf Hk. digit_cases e; digit_cases f; simpl; rewrite ?run_len_0; simpl; rewrite ?skipn_O;
    try reflexivity;
    first [ destruct (k []) eqn:E; [reflexivity | exfalso; exact (Hk _ E)]
          | destruct (k [_]) eqn:E; [reflexivity | exfalso; exact (Hk _ E)] ].
Qed.

Lemma digit_not_hyphen c : ascii_digit c = true -> char_eqb "-" c = false.
Proof. intros H. digit_cases c; reflexivity. Qed.

Lemma days_in_month_le y m : days_in_month y m <= 31.
Proof.
  unfold days_in_month.
  destruct (Z.eqb m 2); [destruct (is_leap y); lia|].
  destruct (_ || _)%bool; lia.
Qed.

Lemma valid_date_month_day y m0 m1 d0 d1 :
  valid_date (mkdate y (int_of_digits [m0; m1]) (int_of_digits [d0; d1])) = true ->
  month_ok m0 m1 = true /\ day_ok d0 d1 = true.
Proof.
  unfold valid_date, month_ok, day_ok; simpl.
  pose proof (days_in_month_le y (int_of_digits [m0; m1])) as Hd.
  intros H. repeat rewrite Bool.andb_true_iff in H. rewrite !Bool.andb_true_iff.
  rewrite !Z.leb_le in *. lia.
Qed.

Lemma ascii_only_digit c : 0 <= c < 128 -> is_digit c = true -> ascii_digit c = true.
Proof. intros [_ H] D. rewrite <- is_digit_ascii by exact H. exact D. Qed.

(** On a [YYYY-MM-DD] word of ASCII digits, [strptime] gives its date when
    that date exists and raises [ValueError] otherwise. *)
Lemma strptime_iso (w : list Z) :
  iso_shape w = true -> ascii_only w = true ->
  strptime_Ymd w =
  if valid_date (iso_date w) then Ret (iso_date w) else Raise ValueError.
Proof.
  destruct w as [|y0 [|y1 [|y2 [|y3 [|h1 [|m0 [|m1 [|h2 [|d0 [|d1 [|? w]]]]]]]]]]];
    try discriminate.
  intros Hw Ha. cbn [iso_shape forallb] in Hw.
  repeat rewrite Bool.andb_true_iff in Hw.
  destruct Hw as [[[Y0 [Y1 [Y2 [Y3 [M0 [M1 [D0 [D1 _]]]]]]]] H1] H2].
  unfold ascii_only in Ha. cbn [forallb] in Ha.
  repeat rewrite Bool.andb_true_iff in Ha. rewrite ?Z.leb_le, ?Z.ltb_lt in Ha.
  destruct Ha as (_ & _ & _ & _ & _ & Am0 & Am1 & _ & Ad0 & Ad1 & _).
  apply ascii_only_digit in M0, M1, D0, D1; try assumption.
  unfold char_eqb in H1, H2. change (code "-") with 45 in H1, H2.
  apply Z.eqb_eq in H1, H2. subst h1 h2.
  change (iso_date [y0; y1; y2; y3; 45; m0; m1; 45; d0; d1])
    with (mkdate (int_of_digits [y0; y1; y2; y3]) (int_of_digits [m0; m1])
            (int_of_digits [d0; d1])).
  unfold strptime_Ymd, re_Y. rewrite rmatch_rep.
  cbn [length Nat.leb firstn forallb]. rewrite Y0, Y1, Y2, Y3. cbn [andb skipn].
  replace (char_eqb "-" 45) with true by reflexivity.
  rewrite rmatch_re_m by (auto; cbn; rewrite (digit_not_hyphen m1 M1); reflexivity).
  destruct (month_ok m0 m1) eqn:Em.
  - rewrite rmatch_re_d by (auto; discriminate).
    destruct (day_ok d0 d1) eqn:Ed.
    + unfold consumed, py_int. cbn -[int_of_digits valid_date is_digit char_eqb].
      replace (char_eqb "-" 45) with true by reflexivity.
      cbn -[int_of_digits valid_date is_digit].
      rewrite <- (is_digit_ascii m0) in M0 by lia.
      rewrite <- (is_digit_ascii m1) in M1 by lia.
      rewrite <- (is_digit_ascii d0) in D0 by lia.
      rewrite <- (is_digit_ascii d1) in D1 by lia.
      rewrite Y0, Y1, Y2, Y3, M0, M1, D0, D1. reflexivity.
    + destruct (valid_date _) eqn:V.
      { apply valid_date_month_day in V. rewrite Ed in V. destruct V; discriminate. }
      destruct (char_eqb "0" d0); reflexivity.
  - destruct (valid_date _) eqn:V; [|reflexivity].
    apply valid_date_month_day in V. rewrite Em in V. destruct V; discriminate.
Qed.

Lemma dmy_only_contract : dmy_contract dmy_only.
Proof. intros s d E V. unfold dmy_only. rewrite E, V. reflexivity. Qed.

Lemma extract_total (dparse : string -> M date) (fname : string) :
  exists r, extract_date_from_name dparse fname = Ret r.
Proof.
  unfold extract_date_from_name, partial_layer, fuzzy_layer.
  destruct (search date_regex_iso _); [destruct (strptime_Ymd _); [eexists; reflexivity|]|];
  cbn [try_except bindM];
  (destruct (search date_like _); [destruct (dparse (str_of _)); [eexists; reflexivity|]|]);
  cbn [try_except bindM]; destruct (dparse fname); eexists; reflexivity.
Qed.


(* ------------------------------------------------------------------ *)
(** ** Lemmas on strings and the sort *)

Lemma string_app_assoc (a b c : string) : (a +:+ b) +:+ c = a +:+ (b +:+ c).
Proof. induction a as [|x a IH]; [reflexivity | exact (f_equal (String x) IH)]. Qed.

Lemma date_ltb_iff a b :
  date_ltb a b = true <->
  (year a < year b \/ year a = year b /\
   (month a < month b \/ month a = month b /\ day a < day b)).
Proof.
  unfold date_ltb.
  repeat first [ rewrite Bool.orb_true_iff | rewrite Bool.andb_true_iff
               | rewrite Z.ltb_lt | rewrite Z.eqb_eq ].
  reflexivity.
Qed.

Lemma date_ltb_false a b :
  date_ltb a b = false <->
  ~ (year a < year b \/ year a = year b /\
     (month a < month b \/ month a = month b /\ day a < day b)).
Proof. rewrite <- date_ltb_iff. destruct (date_ltb a b); intuition discriminate. Qed.

Lemma key_lt_asym a b : key_lt a b = true -> key_lt b a = false.
Proof.
  destruct a as [x|], b as [y|]; simpl; try discriminate; try reflexivity.
  rewrite date_ltb_iff, date_ltb_false. lia.
Qed.

Lemma key_ge_trans : forall a b c : entry, key_ge a b -> key_ge b c -> key_ge a c.
Proof.
  unfold key_ge. intros [? [x|]] [? [y|]] [? [z|]]; simpl; try discriminate; try reflexivity.
  rewrite !date_ltb_false. lia.
Qed.

Lemma insert_by_perm r x l : Permutation (insert_by r x l) (x :: l).
Proof.
  induction l as [|y l IH]; simpl; [reflexivity|].
  destruct (if r then _ else _); [reflexivity|].
  rewrite IH. apply perm_swap.
Qed.

Lemma py_sort_fold_perm r l acc :
  Permutation (fold_left (fun acc x => insert_by r x acc) l acc) (l ++ acc).
Proof.
  revert acc; induction l as [|x l IH]; intros acc; simpl; [reflexivity|].
  rewrite IH, insert_by_perm. symmetry. apply Permutation_middle.
Qed.

Lemma py_sort_perm r l : Permutation (py_sort r l) l.
Proof. unfold py_sort. rewrite py_sort_fold_perm, app_nil_r. reflexivity. Qed.

Lemma insert_by_sorted x l : Sorted key_ge l -> Sorted key_ge (insert_by true x l).
Proof.
  induction l as [|y l IH]; intros H; simpl.
  - repeat constructor.
  - destruct (key_lt y.2 x.2) eqn:E.
    + constructor; [exact H|]. constructor. unfold key_ge. apply key_lt_asym. exact E.
    + apply Sorted_inv in H as [Hl Hy]. constructor; [apply IH; exact Hl|].
      destruct l as [|z l]; simpl; [constructor; exact E|].
      destruct (key_lt z.2 x.2); constructor; [exact E|].
      apply HdRel_inv in Hy. exact Hy.
Qed.

Lemma py_sort_sorted l : StronglySorted key_ge (py_sort true l).
Proof.
  apply Sorted_StronglySorted; [exact key_ge_trans|].
  unfold py_sort. generalize (@nil entry) (Sorted_nil key_ge).
  induction l as [|x l IH]; intros acc Hacc; simpl; [exact Hacc|].
  apply IH, insert_by_sorted, Hacc.
Qed.

Lemma StronglySorted_lookup {A} (R : A -> A -> Prop) (l : list A) i j a b :
  StronglySorted R l -> (i < j)%nat -> l !! i = Some a -> l !! j = Some b -> R a b.
Proof.
  intros H. revert i j. induction H as [|x l Hl IH Hx]; intros i j Hij Hi Hj;
    [discriminate|].
  destruct j as [|j]; [lia|]. simpl in Hj.
  destruct i as [|i].
  - simpl in Hi. injection Hi as <-. rewrite List.Forall_forall in Hx. apply Hx.
    apply list_elem_of_In, list_elem_of_lookup. eauto.
  - simpl in Hi. apply (IH i j); auto; lia.
Qed.

(* ------------------------------------------------------------------ *)
(** ** Lemmas on the report filter *)

Lemma prefixb_spec p s : prefixb p s = true <-> exists r, s = p ++ r.
Proof.
  revert s; induction p as [|c p IH]; intros [|c' s]; simpl.
  - split; [exists []; reflexivity | reflexivity].
  - split; [exists (c' :: s); reflexivity | reflexivity].
  - split; [discriminate | intros [r H]; discriminate].
  - rewrite Bool.andb_true_iff, Ascii.eqb_eq, IH. split.
    + intros [-> [r ->]]. exists r. reflexivity.
    + intros [r H]. injection H as -> H. split; [reflexivity | exists r; exact H].
Qed.

Lemma endswith_spec s suf :
  endswith s suf = true <->
  exists p, list_ascii_of_string s = p ++ list_ascii_of_string suf.
Proof.
  unfold endswith. rewrite prefixb_spec. split; intros [r H].
  - exists (rev r).
    rewrite <- (rev_involutive (list_ascii_of_string s)), H, rev_app_distr, rev_involutive.
    reflexivity.
  - exists (rev r). rewrite H, rev_app_distr. reflexivity.
Qed.

Lemma lower_list f : list_ascii_of_string (lower f) = map lower_char (list_ascii_of_string f).
Proof. unfold lower. apply list_ascii_of_string_of_list_ascii. Qed.

Lemma is_report_spec f :
  is_report f = true <->
  (exists p, map lower_char (list_ascii_of_string f) = p ++ list_ascii_of_string ".md") /\
  f <> "index.md".
Proof.
  unfold is_report. rewrite Bool.andb_true_iff, Bool.negb_true_iff, String.eqb_neq,
    endswith_spec, lower_list. reflexivity.
Qed.

(* ------------------------------------------------------------------ *)
(** ** Lemmas on the clock *)

Lemma clock_parts a b c r : 0 <= b < 24 -> 0 <= c < 60 -> 0 <= r < 60 ->
  (86400*a + 3600*b + 60*c + r) / 86400 = a /\
  (86400*a + 3600*b + 60*c + r) mod 86400 / 3600 = b /\
  (86400*a + 3600*b + 60*c + r) mod 86400 mod 3600 / 60 = c.
Proof.
  intros Hb Hc Hr.
  assert (E1 : (86400*a + 3600*b + 60*c + r) mod 86400 = 3600*b + 60*c + r)
    by (symmetry; apply Z.mod_unique with a; lia).
  assert (E2 : (3600*b + 60*c + r) mod 3600 = 60*c + r)
    by (symmetry; apply Z.mod_unique with b; lia).
  rewrite E1, E2. repeat split.
  - symmetry; apply Z.div_unique with (3600*b + 60*c + r); lia.
  - symmetry; apply Z.div_unique with (60*c + r); lia.
  - symmetry; apply Z.div_unique with r; lia.
Qed.

Lemma clock_decompose n : exists a b c r,
  0 <= b < 24 /\ 0 <= c < 60 /\ 0 <= r < 60 /\
  n = 86400*a + 3600*b + 60*c + r /\ n mod 60 = r.
Proof.
  pose proof (Z.div_mod n 86400). pose proof (Z.mod_pos_bound n 86400).
  pose proof (Z.div_mod (n mod 86400) 3600). pose proof (Z.mod_pos_bound (n mod 86400) 3600).
  pose proof (Z.div_mod (n mod 86400 mod 3600) 60).
  pose proof (Z.mod_pos_bound (n mod 86400 mod 3600) 60).
  exists (n / 86400), (n mod 86400 / 3600), (n mod 86400 mod 3600 / 60),
    (n mod 86400 mod 3600 mod 60).
  assert (Hb : 0 <= n mod 86400 / 3600 < 24)
    by (split; [apply Z.div_pos | apply Z.div_lt_upper_bound]; lia).
  assert (Hc : 0 <= n mod 86400 mod 3600 / 60 < 60)
    by (split; [apply Z.div_pos | apply Z.div_lt_upper_bound]; lia).
  assert (Hn : n = 86400 * (n / 86400) + 3600 * (n mod 86400 / 3600)
                   + 60 * (n mod 86400 mod 3600 / 60) + n mod 86400 mod 3600 mod 60)
    by lia.
  repeat split; try lia.
  symmetry. apply Z.mod_unique with (1440 * (n / 86400) + 60 * (n mod 86400 / 3600)
                                     + n mod 86400 mod 3600 / 60); lia.
Qed.

Lemma utc_stamp_minute now : utc_stamp (now - now mod 60) = utc_stamp now.
Proof.
  destruct (clock_decompose now) as (a & b & c & r & Hb & Hc & Hr & Hn & Hm).
  rewrite Hm.
  assert (Hx : now - r = 86400*a + 3600*b + 60*c + 0) by lia.
  destruct (clock_parts a b c 0 Hb Hc ltac:(lia)) as (E1 & E2 & E3).
  destruct (clock_parts a b c r Hb Hc Hr) as (F1 & F2 & F3).
  unfold utc_stamp. rewrite Hx, E1, E2, E3, Hn, F1, F2, F3. reflexivity.
Qed.

(* ------------------------------------------------------------------ *)
(** ** Lemmas on the stable sort *)

Lemma same_key_eq k x z : same_key k x = true -> same_key k z = true -> z.2 = x.2.
Proof.
  destruct x as [fx [dx|]], z as [fz [dz|]], k as [dk|]; simpl; try discriminate;
    try reflexivity.
  destruct dk, dx, dz; unfold date_eqb; simpl.
  rewrite !Bool.andb_true_iff, !Z.eqb_eq. intros [[-> ->] ->] [[-> ->] ->]. reflexivity.
Qed.

Lemma key_lt_irrefl a : key_lt a a = false.
Proof.
  destruct a as [d|]; simpl; [|reflexivity].
  apply date_ltb_false. lia.
Qed.

Lemma filter_none {A} (f : A -> bool) l :
  (forall z, In z l -> f z = false) -> List.filter f l = [].
Proof.
  induction l as [|z l IH]; intros H; simpl; [reflexivity|].
  rewrite (H z (or_introl eq_refl)). apply IH. intros y Hy. apply H. right. exact Hy.
Qed.

Lemma insert_by_filter k x l :
  StronglySorted key_ge l ->
  List.filter (same_key k) (insert_by true x l) =
  List.filter (same_key k) l ++ (if same_key k x then [x] else []).
Proof.
  induction l as [|y l IH]; intros Hs.
  - simpl. destruct (same_key k x); reflexivity.
  - apply StronglySorted_inv in Hs as [Hl Hy].
    change (insert_by true x (y :: l))
      with (if key_lt y.2 x.2 then x :: y :: l else y :: insert_by true x l).
    destruct (key_lt y.2 x.2) eqn:E.
    + assert (Hn : same_key k x = true -> List.filter (same_key k) (y :: l) = []).
      { intros Kx. apply filter_none.
        intros z [->|Hz]; destruct (same_key k z) eqn:Kz; try reflexivity.
        - rewrite (same_key_eq _ _ _ Kx Kz), key_lt_irrefl in E. discriminate.
        - rewrite List.Forall_forall in Hy. specialize (Hy z Hz). unfold key_ge in Hy.
          rewrite (same_key_eq _ _ _ Kx Kz), E in Hy. discriminate. }
      change (List.filter (same_key k) (x :: y :: l))
        with (if same_key k x then x :: List.filter (same_key k) (y :: l)
              else List.filter (same_key k) (y :: l)).
      destruct (same_key k x) eqn:Kx.
      * rewrite (Hn eq_refl). reflexivity.
      * rewrite app_nil_r. reflexivity.
    + simpl. destruct (same_key k y); rewrite (IH Hl); reflexivity.
Qed.

Lemma strongly_sorted_insert x l :
  StronglySorted key_ge l -> StronglySorted key_ge (insert_by true x l).
Proof.
  intros H. apply Sorted_StronglySorted; [exact key_ge_trans|].
  apply insert_by_sorted, StronglySorted_Sorted, H.
Qed.

Lemma fold_insert_filter k l acc :
  StronglySorted key_ge acc ->
  List.filter (same_key k) (fold_left (fun acc x => insert_by true x acc) l acc) =
  List.filter (same_key k) acc ++ List.filter (same_key k) l.
Proof.
  revert acc; induction l as [|x l IH]; intros acc Hs; simpl.
  - rewrite app_nil_r. reflexivity.
  - rewrite (IH _ (strongly_sorted_insert x acc Hs)), (insert_by_filter k x acc Hs).
    rewrite <- app_assoc. destruct (same_key k x); reflexivity.
Qed.

Lemma insert_by_last x l :
  (forall y, In y l -> key_lt y.2 x.2 = false) -> insert_by true x l = l ++ [x].
Proof.
  induction l as [|y l IH]; intros H; simpl; [reflexivity|].
  rewrite (H y (or_introl eq_refl)), IH; [reflexivity|].
  intros z Hz. apply H. right. exact Hz.
Qed.

Lemma StronglySorted_app_rel {A} (R : A -> A -> Prop) a b y z :
  StronglySorted R (a ++ b) -> In y a -> In z b -> R y z.
Proof.
  induction a as [|x a IH]; intros H Hy Hz; [destruct Hy|].
  simpl in H. apply StronglySorted_inv in H as [Hab Hx].
  destruct Hy as [<-|Hy]; [|exact (IH Hab Hy Hz)].
  rewrite List.Forall_forall in Hx. apply Hx, in_or_app. right. exact Hz.
Qed.

Lemma fold_insert_sorted l acc :
  StronglySorted key_ge (acc ++ l) ->
  fold_left (fun acc x => insert_by true x acc) l acc = acc ++ l.
Proof.
  revert acc; induction l as [|x l IH]; intros acc Hs; simpl.
  - rewrite app_nil_r. reflexivity.
  - rewrite insert_by_last.
    + rewrite IH; [rewrite <- app_assoc; reflexivity|]. rewrite <- app_assoc. exact Hs.
    + intros y Hy. exact (StronglySorted_app_rel _ _ _ y x Hs Hy (or_introl eq_refl)).
Qed.

(* ------------------------------------------------------------------ *)
(** ** Names without digits *)

Lemma back_off_none {A} (k : list Z -> option A) lo n s :
  (forall m, k (skipn m s) = None) -> back_off k lo n s = None.
Proof.
  intros Hk. induction n as [|n IH]; simpl; destruct (Nat.leb lo _); try reflexivity;
    rewrite Hk; [reflexivity | exact IH].
Qed.

Lemma rmatch_none {A} (r : regex) : forall s (k : list Z -> option A),
  (forall m, k (skipn m s) = None) -> rmatch r s k = None.
Proof.
  induction r as [p lo hi | r1 IH1 r2 IH2 | r1 IH1 r2 IH2]; intros s k Hk; simpl.
  - apply back_off_none, Hk.
  - apply IH1. intros m. apply IH2. intros m'. rewrite skipn_skipn. apply Hk.
  - rewrite (IH1 s k Hk). exact (IH2 s k Hk).
Qed.

Lemma skipn_forallb {A} (f : A -> bool) n l :
  forallb f l = true -> forallb f (skipn n l) = true.
Proof.
  revert l; induction n as [|n IH]; intros [|x l] H; simpl in *; try exact H.
  apply Bool.andb_true_iff in H as [_ H]. exact (IH l H).
Qed.

Lemma rmatch_cls_none {A} (p : Z -> bool) lo hi s (k : list Z -> option A) :
  (1 <= lo)%nat -> forallb (fun c => negb (p c)) s = true ->
  rmatch (RCls p lo hi) s k = None.
Proof.
  intros Hlo Hs. simpl.
  assert (E : run_len p hi s = 0%nat).
  { destruct hi as [[|h]|], s as [|c s]; simpl; try reflexivity;
      simpl in Hs; apply Bool.andb_true_iff in Hs as [Hc _];
      apply Bool.negb_true_iff in Hc; rewrite Hc; reflexivity. }
  rewrite E. simpl. destruct lo as [|lo]; [lia|]. reflexivity.
Qed.

Lemma rmatch_seq_none {A} r1 r2 s (k : list Z -> option A) :
  (forall m, rmatch r2 (skipn m s) k = None) -> rmatch (RSeq r1 r2) s k = None.
Proof. intros H. simpl. apply rmatch_none. exact H. Qed.

Lemma search_none r s :
  (forall n, rmatch r (skipn n s) (fun rest => Some rest) = None) -> search r s = None.
Proof.
  induction s as [|c s IH]; intros H; pose proof (H 0%nat) as H0; simpl in H0 |- *.
  - rewrite H0. reflexivity.
  - rewrite H0. apply IH. intros n. exact (H (S n)).
Qed.

Lemma rmatch_seq {A} r1 r2 s (k : list Z -> option A) :
  rmatch (RSeq r1 r2) s k = rmatch r1 s (fun s' => rmatch r2 s' k).
Proof. reflexivity. Qed.

Lemma rmatch_alt {A} r1 r2 s (k : list Z -> option A) :
  rmatch (RAlt r1 r2) s k =
  match rmatch r1 s k with Some a => Some a | None => rmatch r2 s k end.
Proof. reflexivity. Qed.

Lemma search_iso_no_digit s : no_digit s = true -> search date_regex_iso s = None.
Proof.
  intros Hs. apply search_none. intros n. unfold date_regex_iso. rewrite rmatch_seq.
  apply rmatch_cls_none; [lia | apply skipn_forallb, Hs].
Qed.

Lemma search_like_no_digit s : no_digit s = true -> search date_like s = None.
Proof.
  intros Hs. apply search_none. intros n. unfold date_like.
  rewrite rmatch_alt, rmatch_seq, rmatch_cls_none by (lia || apply skipn_forallb, Hs).
  apply rmatch_seq_none. intros m. apply rmatch_seq_none. intros m'.
  rewrite rmatch_seq. apply rmatch_cls_none; [lia|].
  apply skipn_forallb, skipn_forallb, skipn_forallb, Hs.
Qed.



(* ------------------------------------------------------------------ *)
(** ** Lemmas on the file system *)

Lemma agrees_refl fs : agrees fs fs.
Proof. intros k. left. reflexivity. Qed.

Lemma agrees_trans fs1 fs2 fs3 : agrees fs1 fs2 -> agrees fs2 fs3 -> agrees fs1 fs3.
Proof.
  intros H1 H2 k. destruct (H1 k) as [E1|[L1 N1]], (H2 k) as [E2|[L2 N2]].
  - left. congruence.
  - right. rewrite <- E1. auto.
  - right. rewrite E2. auto.
  - right. auto.
Qed.

Lemma agrees_insert fs q n :
  leafy (fs !! q) = true -> no_link (Some n) = true -> agrees fs (<[q := n]> fs).
Proof.
  intros L N k. destruct (decide (q = k)) as [<-|Hne].
  - right. rewrite lookup_insert_eq. auto.
  - left. apply lookup_insert_ne. exact Hne.
Qed.

Lemma grows_refl now fs : grows now fs fs.
Proof. intros k. left. reflexivity. Qed.

Lemma grows_trans now fs1 fs2 fs3 : grows now fs1 fs2 -> grows now fs2 fs3 -> grows now fs1 fs3.
Proof.
  intros H1 H2 k. destruct (H1 k) as [E1|[N1 D1]], (H2 k) as [E2|[N2 D2]].
  - left. congruence.
  - right. rewrite <- E1. auto.
  - right. rewrite E2. auto.
  - congruence.
Qed.

Lemma grows_insert now fs q : fs !! q = None -> grows now fs (<[q := Dir now]> fs).
Proof.
  intros N k. destruct (decide (q = k)) as [<-|Hne].
  - right. rewrite lookup_insert_eq. auto.
  - left. apply lookup_insert_ne. exact Hne.
Qed.


Lemma walk_step_stable fs fs' follow (k k' : list string -> list string -> M (list string)) r :
  agrees fs fs' ->
  (forall d cs, k d cs = Ret r -> k' d cs = Ret r) ->
  forall cs d, walk_step fs follow k d cs = Ret r -> walk_step fs' follow k' d cs = Ret r.
Proof.
  intros Ha Hk. induction cs as [|c cs IH]; intros d H; [exact H|].
  cbn [walk_step] in H |- *.
  destruct (String.eqb c "" || String.eqb c ".")%bool; [apply IH; exact H|].
  destruct (String.eqb c ".."); [apply IH; exact H|].
  destruct (Ha (d ++ [c])) as [E|[L N]].
  - rewrite E. destruct (fs !! (d ++ [c])) as [[]|]; auto.
    destruct (negb follow && is_nil cs)%bool; auto.
  - destruct (fs !! (d ++ [c])) as [[]|]; cbn in L; try discriminate;
      (destruct cs as [|c' cs]; [|discriminate H]); cbn in H;
      destruct (fs' !! (d ++ [c])) as [[]|]; cbn in N; try discriminate; exact H.
Qed.

Lemma walk_stable fs fs' follow r :
  agrees fs fs' ->
  forall fuel d cs, walk fs follow fuel d cs = Ret r -> walk fs' follow fuel d cs = Ret r.
Proof.
  intros Ha fuel. induction fuel as [|n IH]; intros d cs; cbn [walk].
  - apply walk_step_stable; [exact Ha|]. intros d' cs' H. discriminate H.
  - apply walk_step_stable; [exact Ha|]. intros d' cs' H. exact (IH _ _ H).
Qed.

Lemma resolve_with_stable follow cwd fs fs' p q :
  agrees fs fs' -> resolve_with follow cwd fs p = Ret q -> resolve_with follow cwd fs' p = Ret q.
Proof.
  intros Ha. unfold resolve_with. destruct (is_abs p); [apply walk_stable; exact Ha|].
  unfold dir_at. destruct (Ha cwd) as [E|[L _]].
  - rewrite E. destruct (is_dir_node (fs !! cwd)); [apply walk_stable; exact Ha|].
    discriminate.
  - destruct (fs !! cwd) as [[]|]; cbn in L |- *; discriminate.
Qed.

Lemma resolve_stable cwd fs fs' p q :
  agrees fs fs' -> resolve cwd fs p = Ret q -> resolve cwd fs' p = Ret q.
Proof. apply resolve_with_stable. Qed.


Lemma take_while_all {A} (f : A -> bool) l : forallb f l = true -> take_while f l = l.
Proof.
  induction l as [|x l IH]; simpl; [reflexivity|].
  intros H. apply Bool.andb_true_iff in H as [-> H]. rewrite IH by exact H. reflexivity.
Qed.

(** The steps of a run *)

Lemma os_mkdir_grows cwd now p fs fs' r :
  os_mkdir cwd now p fs = (fs', r) -> grows now fs fs'.
Proof.
  unfold os_mkdir. destruct (resolve_with false cwd fs p) as [q|e].
  - destruct (fs !! q) eqn:E; intros H; injection H as <- _;
      [apply grows_refl | apply grows_insert; exact E].
  - intros H. injection H as <- _. apply grows_refl.
Qed.

Lemma mkdir_exist_ok_grows cwd now p fs fs' r :
  mkdir_exist_ok cwd now p fs = (fs', r) -> grows now fs fs'.
Proof.
  unfold mkdir_exist_ok, io_catch.
  destruct (os_mkdir cwd now p fs) as [s [a|e]] eqn:E; intros H.
  - injection H as <- _. exact (os_mkdir_grows _ _ _ _ _ _ E).
  - destruct (path_isdir cwd s p); injection H as <- _; exact (os_mkdir_grows _ _ _ _ _ _ E).
Qed.

Lemma makedirs_weekly_grows cwd now fs fs' r :
  makedirs_weekly cwd now fs = (fs', r) -> grows now fs fs'.
Proof.
  unfold makedirs_weekly, io_bind.
  destruct (if path_exists cwd fs DOCS then (fs, Ret tt) else _) as [s [a|e]] eqn:E.
  - assert (G : grows now fs s).
    { destruct (path_exists cwd fs DOCS).
      - injection E as <- _. apply grows_refl.
      - unfold io_catch in E.
        destruct (mkdir_exist_ok cwd now DOCS fs) as [s' [a'|e']] eqn:E'.
        + injection E as <- _. exact (mkdir_exist_ok_grows _ _ _ _ _ _ E').
        + destruct e'; cbv in E; injection E as <- _; exact (mkdir_exist_ok_grows _ _ _ _ _ _ E'). }
    intros H. exact (grows_trans _ _ _ _ G (mkdir_exist_ok_grows _ _ _ _ _ _ H)).
  - intros H. injection H as <- _.
    destruct (path_exists cwd fs DOCS).
    + injection E as <- _. apply grows_refl.
    + unfold io_catch in E.
      destruct (mkdir_exist_ok cwd now DOCS fs) as [s' [a'|e']] eqn:E'.
      * injection E as <- _. exact (mkdir_exist_ok_grows _ _ _ _ _ _ E').
      * destruct e'; cbv in E; injection E as <- _; exact (mkdir_exist_ok_grows _ _ _ _ _ _ E').
Qed.


Lemma open_append_raise cwd now p fs fs' e :
  open_append cwd now p fs = (fs', Raise e) -> fs' = fs.
Proof.
  unfold open_append. destruct (resolve cwd fs p) as [q|e'].
  - destruct (fs !! q) as [[]|]; intros H; injection H as <-; congruence.
  - intros H. injection H as <-. reflexivity.
Qed.


Lemma write_lines_ok cwd now p ls fs fs' :
  write_lines cwd now p ls fs = (fs', Ret tt) ->
  exists q, resolve cwd fs p = Ret q /\ leafy (fs !! q) = true /\
    forallb utf8_ok ls = true /\ fs' = <[q := File (concat_str ls) now]> fs.
Proof.
  unfold write_lines. destruct (resolve cwd fs p) as [q|e]; [|discriminate].
  intros H. exists q. split; [reflexivity|].
  destruct (fs !! q) as [[]|] eqn:E; try discriminate;
    destruct (forallb utf8_ok ls) eqn:U; injection H as <-; try discriminate;
    rewrite take_while_all by exact U; auto.
Qed.

Lemma write_lines_agrees cwd now p ls fs fs' r :
  write_lines cwd now p ls fs = (fs', r) -> agrees fs fs'.
Proof.
  unfold write_lines. destruct (resolve cwd fs p) as [q|e].
  - destruct (fs !! q) as [[]|] eqn:E; intros H; injection H as <- _;
      try apply agrees_refl; apply agrees_insert; rewrite ?E; reflexivity.
  - intros H. injection H as <- _. apply agrees_refl.
Qed.

(** A completed run, step by step. *)
Lemma run_inv dparse off cwd now fs fs' :
  run dparse off cwd now fs = (fs', Ret tt) ->
  exists s1 names pairs s2 s3,
    makedirs_weekly cwd now fs = (s1, Ret tt) /\
    os_listdir cwd s1 WEEKLY_DIR = Ret names /\
    build_pairs dparse off cwd s1 (report_files names) = Ret pairs /\
    open_append cwd now NOJEKYLL s1 = (s2, Ret tt) /\
    write_lines cwd now weekly_index_path (weekly_lines (py_sort true pairs)) s2 = (s3, Ret tt) /\
    write_lines cwd now main_index_path (main_lines now) s3 = (fs', Ret tt).
Proof.
  unfold run, io_bind, io_read. intros H.
  destruct (makedirs_weekly cwd now fs) as [s1 [[]|e]] eqn:E1; [|discriminate H].
  destruct (os_listdir cwd s1 WEEKLY_DIR) as [names|e] eqn:E2; [|discriminate H].
  destruct (build_pairs dparse off cwd s1 (report_files names)) as [pairs|e] eqn:E3;
    [|discriminate H].
  destruct (open_append cwd now NOJEKYLL s1) as [s2 [[]|e]] eqn:E4; [|discriminate H].
  destruct (write_lines cwd now weekly_index_path (weekly_lines (py_sort true pairs)) s2)
    as [s3 [[]|e]] eqn:E5; [|discriminate H].
  exists s1, names, pairs, s2, s3. repeat split; auto.
Qed.



(** What a completed run leaves at docs/index.md. *)
Lemma run_main dparse off cwd now fs fs' :
  run dparse off cwd now fs = (fs', Ret tt) ->
  read_file cwd fs' main_index_path = Some (concat_str (main_lines now)).
Proof.
  intros H.
  destruct (run_inv _ _ _ _ _ _ H) as (s1 & names & pairs & s2 & s3 & _ & _ & _ & _ & _ & E6).
  destruct (write_lines_ok _ _ _ _ _ _ E6) as (qm & Rm & Lm & _ & ->).
  assert (A : agrees s3 (<[qm := File (concat_str (main_lines now)) now]> s3))
    by (apply agrees_insert; [exact Lm | reflexivity]).
  unfold read_file. rewrite (resolve_stable _ _ _ _ _ A Rm), lookup_insert_eq. reflexivity.
Qed.

(** The loop *)

Lemma build_pairs_ret dparse off cwd fs files pairs :
  build_pairs dparse off cwd fs files = Ret pairs ->
  Forall2 (fun f (e : entry) => e.1 = f /\ exists d, e.2 = Some d /\
             (extract_date_from_name dparse f = Ret (Some d) \/
              (extract_date_from_name dparse f = Ret None /\
               file_mtime_date off cwd fs (path_join WEEKLY_DIR f) = Ret d)))
    files pairs.
Proof.
  revert pairs. induction files as [|f files IH]; intros pairs H.
  - injection H as <-. constructor.
  - cbn [build_pairs] in H.
    destruct (extract_date_from_name dparse f) as [[d|]|e] eqn:Ex; cbn [bindM] in H.
    + destruct (build_pairs dparse off cwd fs files) as [rest|e] eqn:Er; [|discriminate H].
      injection H as <-. constructor; [|exact (IH _ eq_refl)].
      split; [reflexivity|]. exists d. auto.
    + destruct (file_mtime_date off cwd fs (path_join WEEKLY_DIR f)) as [m|e] eqn:Em;
        [|discriminate H]. cbn [bindM] in H.
      destruct (build_pairs dparse off cwd fs files) as [rest|e] eqn:Er; [|discriminate H].
      injection H as <-. constructor; [|exact (IH _ eq_refl)].
      split; [reflexivity|]. exists m. auto.
    + discriminate H.
Qed.

Lemma build_pairs_raise dparse off cwd fs files f e :
  In f files -> extract_date_from_name dparse f = Ret None ->
  file_mtime_date off cwd fs (path_join WEEKLY_DIR f) = Raise e ->
  exists e', build_pairs dparse off cwd fs files = Raise e'.
Proof.
  intros Hin Hx Hm. induction files as [|g files IH]; [destruct Hin|].
  cbn [build_pairs].
  destruct (String.eq_dec g f) as [->|Hne].
  - rewrite Hx. cbn [bindM]. rewrite Hm. eauto.
  - destruct Hin as [->|Hin]; [congruence|].
    destruct (extract_date_from_name dparse g) as [[d|]|e'']; cbn [bindM]; [| |eauto].
    + destruct (IH Hin) as [e' ->]. eauto.
    + destruct (file_mtime_date off cwd fs (path_join WEEKLY_DIR g)); cbn [bindM]; [|eauto].
      destruct (IH Hin) as [e' ->]. eauto.
Qed.

Lemma localtime_date_ret off ts d :
  localtime_date off ts = Ret d -> d = civil_from_days ((ts + off ts) / 86400).
Proof.
  unfold localtime_date. destruct (negb _); [discriminate|].
  destruct (_ && _)%bool; [|discriminate]. intros H. injection H as <-. reflexivity.
Qed.

Lemma local_date_ret off ts d :
  local_date off ts = Ret d -> d = civil_from_days ((ts + off ts) / 86400).
Proof.
  unfold local_date. destruct (negb _); [discriminate|].
  destruct (localtime_date off ts) as [d0|e] eqn:E; cbn [bindM]; [|discriminate].
  destruct (localtime_date off (ts - 86400)); cbn [bindM]; [|discriminate].
  destruct (off ts - off (ts - 86400) <? 0);
    [destruct (localtime_date off (ts + (off ts - off (ts - 86400)))); cbn [bindM]; [|discriminate]|];
    intros H; injection H as <-; exact (localtime_date_ret _ _ _ E).
Qed.

Lemma build_pairs_dated dparse off cwd fs files pairs :
  build_pairs dparse off cwd fs files = Ret pairs ->
  Forall (fun e : entry => e.2 <> None) pairs.
Proof.
  intros H. apply build_pairs_ret in H.
  induction H as [|f e files pairs [_ [d [Hd _]]] _ IH]; constructor;
    [rewrite Hd; discriminate | exact IH].
Qed.

Lemma build_pairs_fst dparse off cwd fs files pairs :
  build_pairs dparse off cwd fs files = Ret pairs -> map fst pairs = files.
Proof.
  intros H. apply build_pairs_ret in H.
  induction H as [|f e files pairs [E _] _ IH]; [reflexivity|]. cbn. rewrite E, IH. reflexivity.
Qed.










Lemma run_pairs_inv dparse off cwd now fs l :
  run_pairs dparse off cwd now fs = Ret l ->
  exists s1 names pairs, makedirs_weekly cwd now fs = (s1, Ret tt) /\
    os_listdir cwd s1 WEEKLY_DIR = Ret names /\
    build_pairs dparse off cwd s1 (report_files names) = Ret pairs /\ l = py_sort true pairs.
Proof.
  unfold run_pairs. destruct (makedirs_weekly cwd now fs) as [s1 [[]|e]] eqn:E1; [|discriminate].
  destruct (os_listdir cwd s1 WEEKLY_DIR) as [names|e] eqn:E2; cbn [bindM]; [|discriminate].
  destruct (build_pairs dparse off cwd s1 (report_files names)) as [pairs|e] eqn:E3;
    cbn [bindM]; [|discriminate].
  intros H. injection H as <-. exists s1, names, pairs. repeat split; assumption.
Qed.

Lemma Forall2_in_l {A B} (P : A -> B -> Prop) l1 l2 x :
  Forall2 P l1 l2 -> In x l1 -> exists y, In y l2 /\ P x y.
Proof.
  induction 1 as [|a b l1 l2 Hab _ IH]; [intros []|]. intros [->|Hx].
  - exists b. split; [left; reflexivity | exact Hab].
  - destruct (IH Hx) as [y [Hy Py]]. exists y. split; [right; exact Hy | exact Py].
Qed.

Lemma Forall2_in_r {A B} (P : A -> B -> Prop) l1 l2 y :
  Forall2 P l1 l2 -> In y l2 -> exists x, In x l1 /\ P x y.
Proof.
  induction 1 as [|a b l1 l2 Hab _ IH]; [intros []|]. intros [->|Hy].
  - exists a. split; [left; reflexivity | exact Hab].
  - destruct (IH Hy) as [x [Hx Px]]. exists x. split; [right; exact Hx | exact Px].
Qed.


(* ================================================================== *)
(** * The claims *)

(** C1 (as amended). [extract_date_from_name] tries only the leftmost
    substring of the shape [\d{4}-\d{2}-\d{2}], where [\d] is any Unicode
    decimal digit. When [strptime] accepts that substring, its date is the
    derived date whatever the rest of the name is, so the leftmost of several
    ISO dates wins; when [strptime] raises, the name falls through to layer 2
    and later ISO dates are never tried. For a substring of ASCII characters,
    [strptime] accepts it exactly when it is a valid calendar date. *)
Theorem extract_leftmost_iso_date (dparse : string -> M date) (fname : string)
    (pre w post : list Z) :
  chars fname = pre ++ w ++ post ->
  iso_shape w = true ->
  (forall i, (i < length pre)%nat ->
     iso_shape (firstn 10 (skipn i (pre ++ w ++ post))) = false) ->
  (forall d, strptime_Ymd w = Ret d ->
     extract_date_from_name dparse fname = Ret (Some d)) /\
  (forall e, strptime_Ymd w = Raise e ->
     extract_date_from_name dparse fname = partial_layer dparse fname) /\
  (ascii_only w = true -> valid_date (iso_date w) = true ->
     extract_date_from_name dparse fname = Ret (Some (iso_date w))) /\
  (ascii_only w = true -> valid_date (iso_date w) = false ->
     extract_date_from_name dparse fname = partial_layer dparse fname).
Proof.
  intros Hs Hw Hpre.
  assert (Hx : extract_date_from_name dparse fname =
               try_except (d <- strptime_Ymd w ;; Ret (Some d))
                 (fun _ => partial_layer dparse fname)).
  { unfold extract_date_from_name. rewrite Hs, (search_iso_leftmost pre w post Hw Hpre).
    reflexivity. }
  assert (H1 : forall d, strptime_Ymd w = Ret d ->
                 extract_date_from_name dparse fname = Ret (Some d))
    by (intros d E; rewrite Hx, E; reflexivity).
  assert (H2 : forall e, strptime_Ymd w = Raise e ->
                 extract_date_from_name dparse fname = partial_layer dparse fname)
    by (intros e E; rewrite Hx, E; reflexivity).
  split; [exact H1|]. split; [exact H2|].
  split; intros Ha Hv; pose proof (strptime_iso w Hw Ha) as S; rewrite Hv in S;
    [exact (H1 _ S) | exact (H2 _ S)].
Qed.

Lemma extract_leftmost_iso_date_witness :
  extract_date_from_name dmy_only "weekly-2025-09-01_to_2025-09-07.md"
  = Ret (Some (iso_date (chars "2025-09-01"))).
Proof.
  refine (proj1 (proj2 (proj2
    (extract_leftmost_iso_date dmy_only "weekly-2025-09-01_to_2025-09-07.md"
       (chars "weekly-") (chars "2025-09-01") (chars "_to_2025-09-07.md") _ _ _))) _ _).
  - vm_compute. reflexivity.
  - vm_compute. reflexivity.
  - intros i Hi. change (length (chars "weekly-")) with 7%nat in Hi.
    do 7 (destruct i as [|i]; [vm_compute; reflexivity|]). lia.
  - vm_compute. reflexivity.
  - vm_compute. reflexivity.
Defined.

(** C1 counterexample. Both names below contain the valid ISO date
    2025-09-01, but their leftmost ISO-shaped substring is 2025-13-01 (in
    ASCII digits, and in Arabic-Indic digits, which [\d] matches too), which
    [strptime] rejects: layer 1 falls through, and with any parser that has
    dateutil's behaviour on [15-sept-2025] (such parsers exist) the derived
    date is 2025-09-15. *)
Lemma extract_skips_later_iso_date :
  first_valid_iso (chars "2025-13-01_15-sept-2025_2025-09-01.md") = Some (mkdate 2025 9 1) /\
  first_valid_iso (chars ex_arabic_name) = Some (mkdate 2025 9 1) /\
  dmy_contract dmy_only /\
  (forall dparse, dmy_contract dparse ->
     extract_date_from_name dparse "2025-13-01_15-sept-2025_2025-09-01.md"
     = Ret (Some (mkdate 2025 9 15)) /\
     extract_date_from_name dparse ex_arabic_name = Ret (Some (mkdate 2025 9 15))).
Proof.
  split; [vm_compute; reflexivity|]. split; [vm_compute; reflexivity|].
  split; [exact dmy_only_contract|].
  intros dparse H.
  assert (P : dparse "15-sept-2025" = Ret (mkdate 2025 9 15))
    by (apply H; vm_compute; reflexivity).
  assert (E4 : str_of (chars "15-sept-2025") = "15-sept-2025") by (vm_compute; reflexivity).
  split; unfold extract_date_from_name, partial_layer.
  - assert (E1 : search date_regex_iso (chars "2025-13-01_15-sept-2025_2025-09-01.md")
                 = Some (chars "2025-13-01")) by (vm_compute; reflexivity).
    assert (E2 : strptime_Ymd (chars "2025-13-01") = Raise ValueError)
      by (vm_compute; reflexivity).
    assert (E3 : search date_like (chars "2025-13-01_15-sept-2025_2025-09-01.md")
                 = Some (chars "15-sept-2025")) by (vm_compute; reflexivity).
    rewrite E1, E2. cbn [try_except bindM]. rewrite E3, E4, P. reflexivity.
  - assert (E1 : search date_regex_iso (chars ex_arabic_name)
                 = Some (firstn 10 (chars ex_arabic_name))) by (vm_compute; reflexivity).
    assert (E2 : strptime_Ymd (firstn 10 (chars ex_arabic_name)) = Raise ValueError)
      by (vm_compute; reflexivity).
    assert (E3 : search date_like (chars ex_arabic_name) = Some (chars "15-sept-2025"))
      by (vm_compute; reflexivity).
    rewrite E1, E2. cbn [try_except bindM]. rewrite E3, E4, P. reflexivity.
Qed.

(** C4. [extract_date_from_name] never raises, whatever the parser raises: it
    always returns a value; a failed [strptime] on the ISO match (or no ISO
    match) falls through to layer 2, a raising parse of the layer-2 match (or
    no such match) falls through to layer 3, and a raising whole-name parse
    gives [None]. *)
Theorem extract_date_from_name_never_raises (dparse : string -> M date) (fname : string) :
  let s := chars fname in
  (exists r, extract_date_from_name dparse fname = Ret r) /\
  (forall g e, search date_regex_iso s = Some g -> strptime_Ymd g = Raise e ->
     extract_date_from_name dparse fname = partial_layer dparse fname) /\
  (search date_regex_iso s = None ->
     extract_date_from_name dparse fname = partial_layer dparse fname) /\
  (forall g e, search date_like s = Some g -> dparse (str_of g) = Raise e ->
     partial_layer dparse fname = fuzzy_layer dparse fname) /\
  (search date_like s = None -> partial_layer dparse fname = fuzzy_layer dparse fname) /\
  (forall e, dparse fname = Raise e -> fuzzy_layer dparse fname = Ret None).
Proof.
  intros s. split; [apply extract_total|].
  unfold extract_date_from_name, partial_layer, fuzzy_layer; fold s.
  repeat split.
  - intros g e -> E. rewrite E. reflexivity.
  - intros ->. reflexivity.
  - intros g e -> E. rewrite E. reflexivity.
  - intros ->. reflexivity.
  - intros e E. rewrite E. reflexivity.
Qed.

(** C7. For [before-15-sept-2025.md], which has no ISO date, layer 2 matches
    [15-sept-2025] and, with dateutil's behaviour on a day, a month name and a
    year, the derived date is 2025-09-15. *)
Theorem extract_before_15_sept_2025 (dparse : string -> M date) :
  dmy_contract dparse ->
  extract_date_from_name dparse "before-15-sept-2025.md" = Ret (Some (mkdate 2025 9 15)).
Proof.
  intros H. unfold extract_date_from_name.
  assert (E1 : search date_regex_iso (chars "before-15-sept-2025.md") = None)
    by (vm_compute; reflexivity).
  rewrite E1. unfold partial_layer.
  assert (E2 : search date_like (chars "before-15-sept-2025.md")
               = Some (chars "15-sept-2025")) by (vm_compute; reflexivity).
  assert (E3 : str_of (chars "15-sept-2025") = "15-sept-2025") by (vm_compute; reflexivity).
  rewrite E2, E3.
  rewrite (H "15-sept-2025" (mkdate 2025 9 15)) by (vm_compute; reflexivity).
  reflexivity.
Qed.

Lemma extract_before_15_sept_2025_witness :
  dmy_contract dmy_only /\
  extract_date_from_name dmy_only "before-15-sept-2025.md" = Ret (Some (mkdate 2025 9 15)).
Proof.
  split; [exact dmy_only_contract|].
  apply extract_before_15_sept_2025. exact dmy_only_contract.
Defined.

(** C2. The entries a run sorts are the ones its loop built, in an order
    where every entry has a date, so no dateless entry is placed before a
    dated one, and the dates go down (newest first). *)
Theorem sort_newest_first_undated_first (dparse : string -> M date) (off : Z -> Z)
    (cwd : list string) (now : Z) (fs : fs_t) (l : list entry) :
  run_pairs dparse off cwd now fs = Ret l ->
  (exists s1 names pairs,
     makedirs_weekly cwd now fs = (s1, Ret tt) /\
     os_listdir cwd s1 WEEKLY_DIR = Ret names /\
     build_pairs dparse off cwd s1 (report_files names) = Ret pairs /\
     Permutation l pairs) /\
  Forall (fun e : entry => e.2 <> None) l /\
  (forall i j a b, (i < j)%nat -> l !! i = Some a -> l !! j = Some b ->
     (b.2 <> None -> a.2 <> None) /\
     (forall da db, a.2 = Some da -> b.2 = Some db -> date_ltb da db = false)).
Proof.
  intros H. destruct (run_pairs_inv _ _ _ _ _ _ H) as (s1 & names & pairs & E1 & E2 & E3 & ->).
  assert (F : Forall (fun e : entry => e.2 <> None) (py_sort true pairs)).
  { apply List.Forall_forall. intros e He.
    apply (Permutation_in _ (py_sort_perm true _)) in He.
    pose proof (build_pairs_dated _ _ _ _ _ _ E3) as F. rewrite List.Forall_forall in F.
    exact (F e He). }
  split; [exists s1, names, pairs; repeat split; auto; apply py_sort_perm|].
  split; [exact F|].
  intros i j a b Hij Ha Hb. split.
  - intros _. exact (Forall_lookup_1 _ _ _ _ F Ha).
  - intros da db Ea Eb.
    pose proof (StronglySorted_lookup _ _ i j a b (py_sort_sorted _) Hij Ha Hb) as K.
    unfold key_ge in K. rewrite Ea, Eb in K. exact K.
Qed.

Lemma sort_newest_first_undated_first_witness :
  run_pairs no_parse utc [] 0 ex_tree = Ret ex_tree_pairs /\
  (exists s1 names pairs,
     makedirs_weekly [] 0 ex_tree = (s1, Ret tt) /\
     os_listdir [] s1 WEEKLY_DIR = Ret names /\
     build_pairs no_parse utc [] s1 (report_files names) = Ret pairs /\
     Permutation ex_tree_pairs pairs) /\
  Forall (fun e : entry => e.2 <> None) ex_tree_pairs /\
  (forall i j a b, (i < j)%nat -> ex_tree_pairs !! i = Some a -> ex_tree_pairs !! j = Some b ->
     (b.2 <> None -> a.2 <> None) /\
     (forall da db, a.2 = Some da -> b.2 = Some db -> date_ltb da db = false)).
Proof.
  split; [vm_compute; reflexivity|].
  apply (sort_newest_first_undated_first no_parse utc [] 0 ex_tree ex_tree_pairs).
  vm_compute. reflexivity.
Defined.

(** C3. A report whose name yields no date at any of the three layers gets,
    in [pairs], the local calendar date of its modification time: the POSIX
    time [getmtime] returns, shifted by the local UTC offset and floored to a
    whole day. When that conversion (or [getmtime]) raises, the loop raises
    and no [pairs] are built. *)
Theorem undated_name_uses_mtime (dparse : string -> M date) (off : Z -> Z)
    (cwd : list string) (fs : fs_t) (files : list string) (f : string) :
  In f files ->
  extract_date_from_name dparse f = Ret None ->
  (forall pairs, build_pairs dparse off cwd fs files = Ret pairs ->
     exists ts,
       getmtime cwd fs (path_join WEEKLY_DIR f) = Ret ts /\
       local_date off ts = Ret (civil_from_days ((ts + off ts) / 86400)) /\
       In (f, Some (civil_from_days ((ts + off ts) / 86400))) pairs /\
       (forall d, In (f, d) pairs -> d = Some (civil_from_days ((ts + off ts) / 86400)))) /\
  (forall e, file_mtime_date off cwd fs (path_join WEEKLY_DIR f) = Raise e ->
     exists e', build_pairs dparse off cwd fs files = Raise e').
Proof.
  intros Hin Hx. split.
  - intros pairs Hp. pose proof (build_pairs_ret _ _ _ _ _ _ Hp) as F.
    destruct (Forall2_in_l _ _ _ _ F Hin) as ([f' d'] & Hd & E & d & Ed & [Hs|[_ Hm]]);
      [rewrite Hx in Hs; discriminate Hs|].
    cbn in E, Ed. subst f' d'.
    unfold file_mtime_date in Hm.
    destruct (getmtime cwd fs (path_join WEEKLY_DIR f)) as [ts|e] eqn:Eg; [|discriminate Hm].
    cbn [bindM] in Hm. pose proof (local_date_ret _ _ _ Hm) as ->.
    exists ts. split; [reflexivity|]. split; [exact Hm|]. split; [exact Hd|].
    intros d'' Hd''.
    destruct (Forall2_in_r _ _ _ _ F Hd'') as (g & _ & E' & d3 & E3 & [Hs|[_ Hm']]);
      cbn in E', E3; subst g; [rewrite Hx in Hs; discriminate Hs|].
    unfold file_mtime_date in Hm'. rewrite Eg in Hm'. cbn [bindM] in Hm'.
    rewrite E3. congruence.
  - intros e He. exact (build_pairs_raise _ _ _ _ _ _ _ Hin Hx He).
Qed.

Lemma undated_name_uses_mtime_witness :
  (forall pairs, build_pairs no_parse utc [] ex_tree ["notes-final.md"] = Ret pairs ->
     exists ts,
       getmtime [] ex_tree (path_join WEEKLY_DIR "notes-final.md") = Ret ts /\
       local_date utc ts = Ret (civil_from_days ((ts + utc ts) / 86400)) /\
       In ("notes-final.md", Some (civil_from_days ((ts + utc ts) / 86400))) pairs /\
       (forall d, In ("notes-final.md", d) pairs ->
                  d = Some (civil_from_days ((ts + utc ts) / 86400)))) /\
  (forall e, file_mtime_date utc [] ex_tree (path_join WEEKLY_DIR "notes-final.md") = Raise e ->
     exists e', build_pairs no_parse utc [] ex_tree ["notes-final.md"] = Raise e').
Proof.
  apply (undated_name_uses_mtime no_parse utc [] ex_tree ["notes-final.md"] "notes-final.md").
  - left. reflexivity.
  - vm_compute. reflexivity.
Defined.




(** C8. docs/index.md depends on the clock only: two completed runs at the
    same time, whatever their report files, working directories, date
    parsers and time zones, leave it with the same bytes, [main_lines now];
    these contain the UTC time stamp, which is the same for every second of
    a minute, and the static link to [/weekly-reports/]. *)
Theorem landing_depends_on_clock_only (dparse1 dparse2 : string -> M date)
    (off1 off2 : Z -> Z) (cwd1 cwd2 : list string) (fs1 fs2 : fs_t) (now : Z) (r1 r2 : fs_t) :
  run dparse1 off1 cwd1 now fs1 = (r1, Ret tt) ->
  run dparse2 off2 cwd2 now fs2 = (r2, Ret tt) ->
  read_file cwd1 r1 main_index_path = Some (concat_str (main_lines now)) /\
  read_file cwd2 r2 main_index_path = read_file cwd1 r1 main_index_path /\
  In (updated_line now) (main_lines now) /\
  updated_line now = "_Updated: " +:+ utc_stamp (now - now mod 60) +:+ "_" +:+ nl +:+ nl /\
  In ("- [Weekly Reports](/weekly-reports/)" +:+ nl +:+ nl) (main_lines now).
Proof.
  intros H1 H2. rewrite (run_main _ _ _ _ _ _ H1), (run_main _ _ _ _ _ _ H2).
  split; [reflexivity|]. split; [reflexivity|].
  split; [right; left; reflexivity|].
  split; [unfold updated_line; rewrite utc_stamp_minute; reflexivity|].
  right; right; right; left; reflexivity.
Qed.

Lemma landing_depends_on_clock_only_witness :
  let r1 := fst (run no_parse utc [] 1757000000 ex_tree) in
  let r2 := fst (run dmy_only utc [] 1757000000 ex_fresh) in
  read_file [] r1 main_index_path = Some (concat_str (main_lines 1757000000)) /\
  read_file [] r2 main_index_path = read_file [] r1 main_index_path /\
  In (updated_line 1757000000) (main_lines 1757000000) /\
  updated_line 1757000000 =
    "_Updated: " +:+ utc_stamp (1757000000 - 1757000000 mod 60) +:+ "_" +:+ nl +:+ nl /\
  In ("- [Weekly Reports](/weekly-reports/)" +:+ nl +:+ nl) (main_lines 1757000000).
Proof.
  intros r1 r2.
  apply (landing_depends_on_clock_only no_parse dmy_only utc utc [] [] ex_tree ex_fresh
           1757000000 r1 r2);
    [ rewrite (surjective_pairing (run no_parse utc [] 1757000000 ex_tree)); f_equal
    | rewrite (surjective_pairing (run dmy_only utc [] 1757000000 ex_fresh)); f_equal ];
    vm_compute; reflexivity.
Defined.

(** C9. A listed name becomes an entry exactly when, lower-cased, it ends in
    [".md"] and it is not ["index.md"]: the entries a run sorts are, up to
    order, the names of docs/weekly-reports that pass this test. *)
Theorem report_entry_iff :
  (forall names f,
     In f (report_files names) <->
     In f names /\
     (exists p, map lower_char (list_ascii_of_string f) = p ++ list_ascii_of_string ".md") /\
     f <> "index.md") /\
  (forall dparse off cwd fs names pairs,
     build_pairs dparse off cwd fs (report_files names) = Ret pairs ->
     map fst pairs = report_files names) /\
  (forall dparse off cwd now fs l,
     run_pairs dparse off cwd now fs = Ret l ->
     exists s1 names, makedirs_weekly cwd now fs = (s1, Ret tt) /\
       os_listdir cwd s1 WEEKLY_DIR = Ret names /\
       Permutation (map fst l) (report_files names)).
Proof.
  split; [|split].
  - intros names f. unfold report_files. rewrite filter_In, is_report_spec. reflexivity.
  - intros dparse off cwd fs names pairs. apply build_pairs_fst.
  - intros dparse off cwd now fs l H.
    destruct (run_pairs_inv _ _ _ _ _ _ H) as (s1 & names & pairs & E1 & E2 & E3 & ->).
    exists s1, names. split; [exact E1|]. split; [exact E2|].
    rewrite <- (build_pairs_fst _ _ _ _ _ _ E3). apply Permutation_map, py_sort_perm.
Qed.

(** C10. After the modification-time fallback every entry of [pairs] has a
    date, before and after the sort: the [is None] part of the sort key is
    always false and every link line carries the date prefix. *)
Theorem run_entries_all_dated (dparse : string -> M date) (off : Z -> Z)
    (cwd : list string) (fs : fs_t) (files : list string) (pairs : list entry) :
  build_pairs dparse off cwd fs files = Ret pairs ->
  Forall (fun e : entry => is_none e.2 = false) pairs /\
  Forall (fun e : entry => is_none e.2 = false) (py_sort true pairs) /\
  Forall (fun e : entry => exists d, e.2 = Some d /\
            link_line e = "- [" +:+ isoformat d +:+ " " +:+ em_dash +:+ " " +:+ e.1
                          +:+ "](" +:+ e.1 +:+ ")" +:+ nl)
    (py_sort true pairs).
Proof.
  intros H. pose proof (build_pairs_dated _ _ _ _ _ _ H) as F.
  assert (Fs : Forall (fun e : entry => e.2 <> None) (py_sort true pairs)).
  { apply List.Forall_forall. intros e He.
    apply (Permutation_in _ (py_sort_perm true _)) in He.
    rewrite List.Forall_forall in F. exact (F e He). }
  split; [eapply List.Forall_impl; [|exact F]; intros [f [d|]] E; simpl in *; congruence|].
  split; [eapply List.Forall_impl; [|exact Fs]; intros [f [d|]] E; simpl in *; congruence|].
  eapply List.Forall_impl; [|exact Fs].
  intros [f [d|]] E; simpl in *; [|congruence].
  exists d. split; [reflexivity|].
  unfold link_line. simpl. rewrite !string_app_assoc. reflexivity.
Qed.

Lemma run_entries_all_dated_witness :
  Forall (fun e : entry => is_none e.2 = false) (List.rev ex_tree_pairs) /\
  Forall (fun e : entry => is_none e.2 = false) (py_sort true (List.rev ex_tree_pairs)) /\
  Forall (fun e : entry => exists d, e.2 = Some d /\
            link_line e = "- [" +:+ isoformat d +:+ " " +:+ em_dash +:+ " " +:+ e.1
                          +:+ "](" +:+ e.1 +:+ ")" +:+ nl)
    (py_sort true (List.rev ex_tree_pairs)).
Proof.
  apply (run_entries_all_dated no_parse utc [] ex_tree
           ["notes-final.md"; "weekly-2025-09-01_to_2025-09-07.md"]).
  vm_compute. reflexivity.
Defined.


(* ------------------------------------------------------------------ *)
(** ** Sanity checks on concrete inputs *)

Example extract_weekly :
  forall dparse, extract_date_from_name dparse "weekly-2025-09-01_to_2025-09-07.md"
                 = Ret (Some (mkdate 2025 9 1)).
Proof. intros dparse. vm_compute. reflexivity. Qed.

Example search_before :
  search date_like (chars "before-15-sept-2025.md") = Some (chars "15-sept-2025").
Proof. vm_compute. reflexivity. Qed.

Example strptime_bad_month : strptime_Ymd (chars "2025-13-01") = Raise ValueError.
Proof. vm_compute. reflexivity. Qed.

Example strptime_bad_day : strptime_Ymd (chars "2025-02-29") = Raise ValueError.
Proof. vm_compute. reflexivity. Qed.

Example strptime_leap : strptime_Ymd (chars "2024-02-29") = Ret (mkdate 2024 2 29).
Proof. vm_compute. reflexivity. Qed.

Example utc_stamp_ex : utc_stamp 1757000000 = "2025-09-04 15:33 UTC".
Proof. vm_compute. reflexivity. Qed.

Example civil_ex : civil_from_days 0 = mkdate 1970 1 1.
Proof. reflexivity. Qed.

Example ex_tree_weekly_index :
  read_file [] (fst (run no_parse utc [] 1757000000 ex_tree)) weekly_index_path
  = Some (concat_str (weekly_lines ex_tree_pairs)).
Proof. vm_compute. reflexivity. Qed.

Example ex_far_mtime_raises :
  snd (run no_parse utc [] 1757000000 ex_far_mtime) = Raise ValueError.
Proof. vm_compute. reflexivity. Qed.

Example ex_broken_link_raises :
  snd (run no_parse utc [] 1757000000 ex_broken_link) = Raise FileNotFoundError.
Proof. vm_compute. reflexivity. Qed.

(* ================================================================== *)
(** * Further properties of the script *)

(** X1.  [pairs.sort(..., reverse=True)] is stable: for every key value, the
    entries with that key (the same date, or no date) appear in the sorted
    list in the order they had in the input. *)
Theorem py_sort_stable (k : option date) (l : list entry) :
  List.filter (same_key k) (py_sort true l) = List.filter (same_key k) l.
Proof.
  unfold py_sort. rewrite (fold_insert_filter k l [] (SSorted_nil _)). reflexivity.
Qed.

(** X2.  Sorting leaves a list unchanged exactly when it is already in the
    sort's order (no entry has a smaller key than a later one); so sorting a
    second time changes nothing. *)
Theorem py_sort_fixed_iff (l : list entry) :
  (py_sort true l = l <-> StronglySorted key_ge l) /\
  py_sort true (py_sort true l) = py_sort true l.
Proof.
  assert (Hiff : forall l, py_sort true l = l <-> StronglySorted key_ge l).
  { intros l'. split.
    - intros E. rewrite <- E. apply py_sort_sorted.
    - intros Hs. unfold py_sort. apply (fold_insert_sorted l' []). exact Hs. }
  split; [apply Hiff|]. apply Hiff, py_sort_sorted.
Qed.



(** X5.  The exclusion of the index page is case-sensitive while the
    extension test is not: a listed name that lower-cases to ["index.md"] but
    is not exactly ["index.md"] (say ["INDEX.md"]) is treated as a report. *)
Theorem index_case_variant_is_report (names : list string) (f : string) :
  lower f = "index.md" -> f <> "index.md" ->
  In f names -> In f (report_files names).
Proof.
  intros Hl Hne Hin. unfold report_files. apply filter_In. split; [exact Hin|].
  unfold is_report. rewrite Hl. apply String.eqb_neq in Hne. rewrite Hne. reflexivity.
Qed.

Lemma index_case_variant_is_report_witness :
  (lower "INDEX.md" = "index.md" /\ "INDEX.md" <> "index.md" /\ In "INDEX.md" ["INDEX.md"]) /\
  In "INDEX.md" (report_files ["INDEX.md"]).
Proof.
  split; [split; [vm_compute; reflexivity | split; [intros H; discriminate H
                                                   | left; reflexivity]]|].
  apply index_case_variant_is_report;
    [vm_compute; reflexivity | intros H; discriminate H | left; reflexivity].
Defined.

(** X7.  A name without a decimal digit (of any script) never matches the
    ISO pattern nor the partial day-month-year pattern (both need a digit),
    so its date comes from the fuzzy parse of the whole name, and is absent
    when that parse raises. *)
Theorem extract_no_digit (dparse : string -> M date) (fname : string) :
  no_digit (chars fname) = true ->
  extract_date_from_name dparse fname =
  match dparse fname with Ret d => Ret (Some d) | Raise _ => Ret None end.
Proof.
  intros Hs. unfold extract_date_from_name, partial_layer, fuzzy_layer.
  rewrite search_iso_no_digit, search_like_no_digit by exact Hs.
  destruct (dparse fname); reflexivity.
Qed.

Lemma extract_no_digit_witness :
  no_digit (chars "notes-final.md") = true /\
  extract_date_from_name no_parse "notes-final.md" = Ret None.
Proof.
  split; [vm_compute; reflexivity|].
  refine (extract_no_digit no_parse "notes-final.md" _).
  vm_compute; reflexivity.
Defined.

(** X8.  When the loop raises (or the directory cannot be listed), the run
    ends with that exception before touching docs/.nojekyll or either index
    page: the only changes are the directories [os.makedirs] created. *)
Theorem run_raise_before_writes (dparse : string -> M date) (off : Z -> Z)
    (cwd : list string) (now : Z) (fs : fs_t) (e : exn) :
  run_pairs dparse off cwd now fs = Raise e ->
  run dparse off cwd now fs = (fst (makedirs_weekly cwd now fs), Raise e) /\
  grows now fs (fst (makedirs_weekly cwd now fs)).
Proof.
  unfold run_pairs, run, io_bind, io_read.
  destruct (makedirs_weekly cwd now fs) as [s1 r1] eqn:E1.
  pose proof (makedirs_weekly_grows _ _ _ _ _ E1) as G. cbn [fst].
  destruct r1 as [[]|e1]; intros H; [|injection H as ->; split; [reflexivity | exact G]].
  destruct (os_listdir cwd s1 WEEKLY_DIR) as [names|e1]; cbn [bindM] in H;
    [|injection H as ->; split; [reflexivity | exact G]].
  destruct (build_pairs dparse off cwd s1 (report_files names)) as [pairs|e1];
    cbn [bindM] in H; [discriminate H|].
  injection H as ->. split; [reflexivity | exact G].
Qed.

Lemma run_raise_before_writes_witness :
  run no_parse utc [] 1757000000 ex_far_mtime
  = (fst (makedirs_weekly [] 1757000000 ex_far_mtime), Raise ValueError) /\
  grows 1757000000 ex_far_mtime (fst (makedirs_weekly [] 1757000000 ex_far_mtime)).
Proof.
  apply run_raise_before_writes. vm_compute. reflexivity.
Defined.
